(** * ObjectSlice: the slicing orchestration of [slice.py]

    A shallow embedding of [SlicingOperation] and [execute_slice], with the
    parts of the Python 2 runtime they call ([range], integer division,
    [string.Template], [os.path.dirname], [os.makedirs], [open], [os.remove],
    [subprocess.check_call], [multiprocessing.Pool.map]).

    Heights are Python 2 integers, modelled as [Z]; [/] on them is floor
    division.  Exceptions are values of [exn]; code that can raise returns a
    [result].  Code that touches the file system, the log or the renderer
    threads a [world], which survives a raise. *)

From Stdlib Require Import ZArith String Ascii List Lia Sorted.
From stdpp Require Import base gmap strings list pretty.

Local Open Scope string_scope.
Local Open Scope Z_scope.

(** ** Exceptions and results *)

(** The Python exception classes this program can raise. *)
Inductive exn : Type :=
  | RuntimeError
  | TypeError
  | ValueError
  | ZeroDivisionError
  | KeyError (key : string)
  | OSError
  | IOError
  | CalledProcessError (returncode : Z) (cmd : list string).

Inductive result (A : Type) : Type :=
  | Ok (a : A)
  | Raise (e : exn).
Arguments Ok {A} a.
Arguments Raise {A} e.

Definition rbind {A B} (r : result A) (k : A → result B) : result B :=
  match r with
  | Ok a => k a
  | Raise e => Raise e
  end.

(** [[f(x) for x in l]]: evaluated left to right, the first raise wins. *)
Fixpoint rmap {A B} (f : A → result B) (l : list A) : result (list B) :=
  match l with
  | [] => Ok []
  | x :: l' => rbind (f x) (λ y, rbind (rmap f l') (λ ys, Ok (y :: ys)))
  end.

(** ** Python 2 built-ins on integers *)

Module Py.

(** [a / b] where [b] may be [None]. *)
Definition div (a : Z) (b : option Z) : result Z :=
  match b with
  | None => Raise TypeError
  | Some b => if b =? 0 then Raise ZeroDivisionError else Ok (a / b)
  end.

(** [get_len_of_range(lo, hi, step)] of [bltinmodule.c], for [step > 0]. *)
Definition get_len_of_range (lo hi step : Z) : Z :=
  if lo <? hi then (hi - lo - 1) / step + 1 else 0.

Fixpoint range_items (n : nat) (ival istep : Z) : list Z :=
  match n with
  | O => []
  | S n' => ival :: range_items n' (ival + istep) istep
  end.

(** [range(ilow, ihigh, istep)]: a list in Python 2.  The limits of the
    machine (a result too long to allocate) are not modelled. *)
Definition range (ilow ihigh istep : Z) : result (list Z) :=
  if istep =? 0 then Raise ValueError
  else
    let bign :=
      if 0 <? istep then get_len_of_range ilow ihigh istep
      else get_len_of_range ihigh ilow (- istep) in
    Ok (range_items (Z.to_nat bign) ilow istep).

(** [str(i)] for an integer. *)
Definition str (i : Z) : string := pretty i.

(** [sep.join(l)]. *)
Fixpoint join (sep : string) (l : list string) : string :=
  match l with
  | [] => ""
  | [x] => x
  | x :: l' => x +:+ sep +:+ join sep l'
  end.

End Py.

(** ** [string.Template] *)

Module Template.

(** [idpattern = r'[_a-z][_a-z0-9]*'], matched with [re.IGNORECASE]. *)
Definition is_id_start (c : ascii) : bool :=
  Ascii.eqb c "_" || (Ascii.leb "a" c && Ascii.leb c "z")
  || (Ascii.leb "A" c && Ascii.leb c "Z").

Definition is_id_char (c : ascii) : bool :=
  is_id_start c || (Ascii.leb "0" c && Ascii.leb c "9").

(** Where the scanner of
    [\$(?:(?P<escaped>\$)|(?P<named>id)|{(?P<braced>id)}|(?P<invalid>))]
    stands. *)
Inductive state : Type :=
  | Text
  | Dollar
  | Named (name : string)
  | BraceOpen
  | Braced (name : string).

(** [mapping[named]] for the keyword arguments of [substitute]. *)
Fixpoint lookup (mapping : list (string * string)) (name : string)
  : result string :=
  match mapping with
  | [] => Raise (KeyError name)
  | (k, v) :: mapping' =>
      if String.eqb k name then Ok v else lookup mapping' name
  end.

Definition snoc (s : string) (c : ascii) : string := s +:+ String c "".

(** [convert] applied to every match, left to right: [$$] gives [$],
    [$name] and [${name}] give the mapped value (a missing name raises
    KeyError), any other [$] raises ValueError. *)
Fixpoint scan (mapping : list (string * string)) (st : state) (s : string)
  : result string :=
  match s with
  | EmptyString =>
      match st with
      | Text => Ok ""
      | Named name => lookup mapping name
      | Dollar | BraceOpen | Braced _ => Raise ValueError
      end
  | String c s' =>
      let text :=
        if Ascii.eqb c "$" then scan mapping Dollar s'
        else rbind (scan mapping Text s') (λ r, Ok (String c r)) in
      match st with
      | Text => text
      | Dollar =>
          if Ascii.eqb c "$" then
            rbind (scan mapping Text s') (λ r, Ok (String "$" r))
          else if is_id_start c then scan mapping (Named (String c "")) s'
          else if Ascii.eqb c "{" then scan mapping BraceOpen s'
          else Raise ValueError
      | Named name =>
          if is_id_char c then scan mapping (Named (snoc name c)) s'
          else
            rbind (lookup mapping name) (λ v,
            rbind text (λ r, Ok (v +:+ r)))
      | BraceOpen =>
          if is_id_start c then scan mapping (Braced (String c "")) s'
          else Raise ValueError
      | Braced name =>
          if is_id_char c then scan mapping (Braced (snoc name c)) s'
          else if Ascii.eqb c "}" then
            rbind (lookup mapping name) (λ v,
            rbind (scan mapping Text s') (λ r, Ok (v +:+ r)))
          else Raise ValueError
      end
  end.

(** [string.Template(template).substitute] with keyword arguments
    [mapping]. *)
Definition substitute (template : string) (mapping : list (string * string))
  : result string :=
  scan mapping Text template.

End Template.

(** ** [os.path] *)

Module Path.

Fixpoint has_sep (p : string) : bool :=
  match p with
  | EmptyString => false
  | String c r => Ascii.eqb c "/" || has_sep r
  end.

Fixpoint all_sep (p : string) : bool :=
  match p with
  | EmptyString => true
  | String c r => Ascii.eqb c "/" && all_sep r
  end.

(** [p[:p.rfind('/') + 1]]. *)
Fixpoint upto_last_sep (p : string) : string :=
  match p with
  | EmptyString => ""
  | String c r => if has_sep p then String c (upto_last_sep r) else ""
  end.

(** [head.rstrip('/')]. *)
Fixpoint rstrip_sep (head : string) : string :=
  match head with
  | EmptyString => ""
  | String c r => if all_sep head then "" else String c (rstrip_sep r)
  end.

(** [posixpath.dirname]. *)
Definition dirname (p : string) : string :=
  let head := upto_last_sep p in
  if negb (String.eqb head "") && negb (all_sep head)
  then rstrip_sep head else head.

End Path.

(** ** The world: file system, log, renderer invocations *)

(** Paths are the strings the program passes to the operating system; no
    normalisation is modelled. *)
Record filesystem : Type := {
  files : gmap string string;
  dirs : gset string;
}.

Inductive level : Type := DEBUG | INFO | ERROR.

Inductive arg : Type :=
  | AInt (i : Z)
  | AStr (s : string)
  | AInts (l : list Z)
  | AStrs (l : list string).

(** A [logging.LogRecord]: the message and the arguments it is formatted
    with when a handler emits it. *)
Record log_record : Type := {
  lvl : level;
  msg : string;
  args : list arg;
}.

(** How a [subprocess] call ended. *)
Inductive outcome : Type :=
  | Exited (code : Z)
  | NotLaunched.

Record world : Type := {
  fs : filesystem;
  log : list log_record;
  invocations : list (list string * outcome);
}.

(** Computations that read and change the world and may raise. *)
Definition M (A : Type) : Type := world → result A * world.

Definition ret {A} (a : A) : M A := λ w, (Ok a, w).

Definition bind {A B} (m : M A) (k : A → M B) : M B := λ w,
  match m w with
  | (Ok a, w') => k a w'
  | (Raise e, w') => (Raise e, w')
  end.

Definition lift {A} (r : result A) : M A := λ w, (r, w).

(** [try: m except <the exceptions h accepts>: h e]. *)
Definition try_except {A} (m : M A) (h : exn → option (M A)) : M A := λ w,
  match m w with
  | (Ok a, w') => (Ok a, w')
  | (Raise e, w') =>
      match h e with
      | Some k => k w'
      | None => (Raise e, w')
      end
  end.

Global Instance M_ret : MRet M := @ret.
Global Instance M_bind : MBind M := λ A B k m, bind m k.

Definition with_fs (w : world) (fs' : filesystem) : world :=
  {| fs := fs'; log := log w; invocations := invocations w |}.

Definition with_log (w : world) (r : log_record) : world :=
  {| fs := fs w; log := log w ++ [r]; invocations := invocations w |}.

Module LOG.
Definition emit (l : level) (m : string) (a : list arg) : M unit := λ w,
  (Ok (), with_log w {| lvl := l; msg := m; args := a |}).
Definition debug := emit DEBUG.
Definition info := emit INFO.
Definition error := emit ERROR.
End LOG.

Module OS.

(** [os.path.exists]. *)
Definition exists_ (f : filesystem) (p : string) : bool :=
  negb (String.eqb p "")
  && (bool_decide (p ∈ dirs f) || bool_decide (is_Some (files f !! p))).

(** The path and the directories above it, nearest first. *)
Fixpoint ancestors (fuel : nat) (p : string) : list string :=
  match fuel with
  | O => []
  | S fuel' =>
      if String.eqb p "" then []
      else
        let d := Path.dirname p in
        p :: (if String.eqb d p then [] else ancestors fuel' d)
  end.

(** [os.makedirs(name)]: [mkdir] of the empty path or of an existing one
    fails, and so does a file on the way; otherwise the path and every
    missing directory above it are created.  Permissions are not
    modelled. *)
Definition makedirs (name : string) : M unit := λ w,
  let chain := ancestors (S (String.length name)) name in
  if String.eqb name "" then (Raise OSError, w)
  else if exists_ (fs w) name then (Raise OSError, w)
  else if existsb (λ p, bool_decide (is_Some (files (fs w) !! p))) chain
  then (Raise OSError, w)
  else
    (Ok (), with_fs w {| files := files (fs w);
                         dirs := list_to_set chain ∪ dirs (fs w) |}).

(** Whether [open(filename, 'w')] succeeds: the name is not empty, is not
    a directory, and the directory it is in exists. *)
Definition can_open_w (f : filesystem) (filename : string) : bool :=
  negb (String.eqb filename "")
  && negb (bool_decide (filename ∈ dirs f))
  && (String.eqb (Path.dirname filename) ""
      || bool_decide (Path.dirname filename ∈ dirs f)).

(** [with open(filename, 'w') as f: f.write(contents)]. *)
Definition write_file (filename contents : string) : M unit := λ w,
  if can_open_w (fs w) filename then
    (Ok (), with_fs w {| files := <[filename := contents]> (files (fs w));
                         dirs := dirs (fs w) |})
  else (Raise IOError, w).

(** [os.remove(filename)]. *)
Definition remove (filename : string) : M unit := λ w,
  match files (fs w) !! filename with
  | Some _ =>
      (Ok (), with_fs w {| files := delete filename (files (fs w));
                           dirs := dirs (fs w) |})
  | None => (Raise OSError, w)
  end.

End OS.

Global Instance result_ret : MRet result := @Ok.
Global Instance result_bind : MBind result := λ A B k r, rbind r k.

(** ** [slice.py] *)

Definition SLICER_TEMPLATE : string :=
"
$import_str
projection(cut=true)
{
  translate([0, 0, -LAYER_HEIGHT-0.001])
  {
    difference()
    {
      union()
      {
        $object_str
      }
      union()
      {
        $key_str
      }
    }
  }
}
".

(** The attributes of a [SlicingOperation] instance.  [_scad_include_str]
    is the constant ['include <{0}>;'] and appears in [scad_include]. *)
Record SlicingOperation : Type := {
  scad_includes : list string;
  scad_object_modules : list string;
  scad_key_modules : list string;
  keep_scad_file : bool;
  scad_filename : string;
  _out_format : string;
  _openscad_command : string;
  _processes : Z;
  _slices : list Z;
}.

(** [SlicingOperation(out_format, openscad, processes)]. *)
Definition __init__ (out_format openscad : string) (processes : Z)
  : SlicingOperation :=
  {| scad_includes := [];
     scad_object_modules := [];
     scad_key_modules := [];
     keep_scad_file := false;
     scad_filename := "object_slice.scad";
     _out_format := out_format;
     _openscad_command := openscad;
     _processes := processes;
     _slices := [] |}.

Definition with_slices (self : SlicingOperation) (l : list Z)
  : SlicingOperation :=
  {| scad_includes := scad_includes self;
     scad_object_modules := scad_object_modules self;
     scad_key_modules := scad_key_modules self;
     keep_scad_file := keep_scad_file self;
     scad_filename := scad_filename self;
     _out_format := _out_format self;
     _openscad_command := _openscad_command self;
     _processes := _processes self;
     _slices := l |}.

(** The value [set_slices] assigns to [self._slices] (lines 107-113). *)
Definition heights (start end_ : Z) (step num : option Z)
  : result (list Z) :=
  match step with
  | None =>
      s ← Py.div (end_ - start) num;
      Py.range start (end_ + 1) s
  | Some step' =>
      match num with
      | None => Py.range start (end_ + 1) step'
      | Some _ => Raise RuntimeError
      end
  end.

(** [self.set_slices(start, end, step, num)]: the instance with its new
    [_slices]. *)
Definition set_slices (self : SlicingOperation) (start end_ : Z)
    (step num : option Z) : M SlicingOperation :=
  l ← lift (heights start end_ step num);
  LOG.info "Num slices: %d" [AInt (Z.of_nat (length l))];;
  LOG.info "Slices: %s" [AInts l];;
  mret (with_slices self l).

(** [self._scad_include_str.format(i)]. *)
Definition scad_include (i : string) : string := "include <" +:+ i +:+ ">;".

(** The locals [import_str], [object_str] and [key_str] of
    [_make_slice_file] (lines 152-154). *)
Definition import_str (self : SlicingOperation) : string :=
  Py.join "
" (map scad_include (scad_includes self)).

Definition object_str (self : SlicingOperation) : string :=
  Py.join "
" (map (λ m, m +:+ ";") (scad_object_modules self)).

Definition key_str (self : SlicingOperation) : string :=
  Py.join "
" (map (λ m, m +:+ ";") (scad_key_modules self)).

(** The text [_make_slice_file] composes (lines 156-159). *)
Definition contents (self : SlicingOperation) : result string :=
  Template.substitute SLICER_TEMPLATE
    [("import_str", import_str self); ("object_str", object_str self);
     ("key_str", key_str self); ("openscad", _openscad_command self)].

Definition _make_slice_file (self : SlicingOperation) : M unit :=
  c ← lift (contents self);
  LOG.debug ".scad file contents: %s" [AStr c];;
  OS.write_file (scad_filename self) c;;
  LOG.info "Created .scad file: %s" [AStr (scad_filename self)].

Definition _make_output_dir (self : SlicingOperation) : M unit :=
  let out_dir := Path.dirname (_out_format self) in
  (λ w, if negb (OS.exists_ (fs w) out_dir) then OS.makedirs out_dir w
        else (Ok (), w));;
  LOG.info "Created output directory: %s" [AStr out_dir].

(** A job: [(scad_file, height, output_file, openscad)]. *)
Definition job : Type := string * Z * string * string.

(** The list comprehension of line 128. *)
Definition jobs (self : SlicingOperation) : result (list job) :=
  rmap (λ h,
      o ← Template.substitute (_out_format self) [("height", Py.str h)];
      Ok (scad_filename self, h, o, _openscad_command self))
    (_slices self).

(** What the pool is free to do with the jobs of one [map]: the order in
    which the workers take them, and how many more of them are still run
    once one has raised.  Every order the workers can produce is the
    [order] of some schedule. *)
Record schedule : Type := {
  order : list job → list job;
  order_perm : ∀ js, order js ≡ₚ js;
  stragglers : nat;
}.

(** Run the jobs and ignore what they raise. *)
Fixpoint attempt (func : job → M unit) (js : list job) (w : world) : world :=
  match js with
  | [] => w
  | j :: js' => attempt func js' (func j w).2
  end.

(** The workers take the jobs in the given order; once a job has raised,
    [more] further jobs are still run, and its exception is what the
    caller gets. *)
Fixpoint work (func : job → M unit) (more : nat) (js : list job) : M unit :=
  match js with
  | [] => mret ()
  | j :: js' => λ w,
      match func j w with
      | (Ok _, w1) => work func more js' w1
      | (Raise e, w1) => (Raise e, attempt func (take more js') w1)
      end
  end.

Section Renderer.

(** What running a command line does: how the process ends and the file
    system it leaves. *)
Variable run : list string → filesystem → outcome * filesystem.

(** How the pool schedules the jobs. *)
Variable sched : schedule.

(** [subprocess.check_call(cmd)]: CalledProcessError for a non-zero exit
    status, OSError when the process cannot be started.  Every call is
    recorded in [invocations]. *)
Definition check_call (cmd : list string) : M unit := λ w,
  match run cmd (fs w) with
  | (NotLaunched, _) =>
      (Raise OSError,
       {| fs := fs w; log := log w;
          invocations := invocations w ++ [(cmd, NotLaunched)] |})
  | (Exited code, fs') =>
      let w' := {| fs := fs'; log := log w;
                   invocations := invocations w ++ [(cmd, Exited code)] |} in
      if code =? 0 then (Ok (), w')
      else (Raise (CalledProcessError code cmd), w')
  end.

Definition execute_slice (args : job) : M unit :=
  let '(scad_file, height, output_file, openscad) := args in
  let height_param := "-DLAYER_HEIGHT=" +:+ Py.str height in
  try_except
    (LOG.info ("Starting slice at height " +:+ Py.str height) [];;
     check_call [openscad; height_param; "-o"; output_file; scad_file];;
     LOG.info ("Completed slice at height " +:+ Py.str height) [])
    (λ e, match e with
          | CalledProcessError code cmd =>
              (* LOG.error(str(cpe)) *)
              Some (LOG.error
                      "Command '%s' returned non-zero exit status %d"
                      [AStrs cmd; AInt code])
          | _ => None
          end).

(** [multiprocessing.Pool(processes)]. *)
Definition Pool (processes : Z) : M unit :=
  if processes <? 1 then lift (Raise ValueError) else mret ().

(** [pool.map(func, iterable)].  The workers only meet in the file system;
    each job is one step, and the steps follow each other in the order of
    the schedule, not of the list.  When every job returns, the results
    come back in the order of the list; the first exception of a job is
    raised again in the caller, while up to [stragglers] of the jobs still
    waiting are run all the same. *)
Definition pool_map (func : job → M unit) (iterable : list job)
  : M (list unit) :=
  work func (stragglers sched) (order sched iterable);;
  mret (replicate (length iterable) ()).

Definition cleanup (self : SlicingOperation) : M unit :=
  if negb (keep_scad_file self) then
    LOG.info "Removing .scad file: %s" [AStr (scad_filename self)];;
    OS.remove (scad_filename self)
  else mret ().

(** Lines 124-131 of [slice]: everything up to the end of the dispatch. *)
Definition dispatch (self : SlicingOperation) : M unit :=
  _make_output_dir self;;
  _make_slice_file self;;
  js ← lift (jobs self);
  Pool (_processes self);;
  pool_map execute_slice js;;
  mret ().

(** [self.slice()]. *)
Definition slice (self : SlicingOperation) : M unit :=
  dispatch self;;
  cleanup self.

End Renderer.

(** * Vocabulary of the properties *)

(** The world after [set_slices] has logged the heights [l]. *)
Definition logged_slices (w : world) (l : list Z) : world :=
  with_log
    (with_log w {| lvl := INFO; msg := "Num slices: %d";
                   args := [AInt (Z.of_nat (length l))] |})
    {| lvl := INFO; msg := "Slices: %s"; args := [AInts l] |}.

(** The composed text, piece by piece. *)
Definition composed (imports objects keys : string) : string :=
  "
" +:+ imports +:+ "
projection(cut=true)
{
  translate([0, 0, -LAYER_HEIGHT-0.001])
  {
    difference()
    {
      union()
      {
        " +:+ objects +:+ "
      }
      union()
      {
        " +:+ keys +:+ "
      }
    }
  }
}
".

(** [s] occurs in [t]. *)
Definition occurs_in (s t : string) : Prop :=
  ∃ before after, t = before +:+ s +:+ after.

(** The text [_make_slice_file] writes. *)
Definition template_text (self : SlicingOperation) : string :=
  composed (import_str self) (object_str self) (key_str self).

Definition debug_contents (self : SlicingOperation) : log_record :=
  {| lvl := DEBUG; msg := ".scad file contents: %s";
     args := [AStr (template_text self)] |}.

(** The world after [_make_slice_file] has written the template. *)
Definition template_written (self : SlicingOperation) (w : world) : world :=
  {| fs := {| files := <[scad_filename self := template_text self]>
                         (files (fs w));
              dirs := dirs (fs w) |};
     log := log w ++ [debug_contents self;
                      {| lvl := INFO; msg := "Created .scad file: %s";
                         args := [AStr (scad_filename self)] |}];
     invocations := invocations w |}.

(** An empty world and a freshly constructed operation, for examples. *)
Definition empty_world : world :=
  {| fs := {| files := ∅; dirs := ∅ |}; log := []; invocations := [] |}.

Definition fresh : SlicingOperation :=
  __init__ "./out/slice_$height.dxf" "openscad" 4.

Fixpoint has_dollar (s : string) : bool :=
  match s with
  | EmptyString => false
  | String c r => Ascii.eqb c "$" || has_dollar r
  end.

(** A renderer that always succeeds and writes its output file. *)
Definition writes_output (cmd : list string) (f : filesystem)
  : outcome * filesystem :=
  match cmd with
  | [_; _; _; output_file; _] =>
      (Exited 0, {| files := <[output_file := "dxf"]> (files f);
                    dirs := dirs f |})
  | _ => (Exited 1, f)
  end.

(** Three heights and a pattern without [$height]. *)
Definition unmarked : SlicingOperation :=
  with_slices (__init__ "out/slice.dxf" "openscad" 4) [0; 5; 10].

(** The command line [execute_slice] runs for a job. *)
Definition command (j : job) : list string :=
  let '(scad_file, height, output_file, openscad) := j in
  [openscad; "-DLAYER_HEIGHT=" +:+ Py.str height; "-o"; output_file;
   scad_file].

Definition height_of (j : job) : Z := j.1.1.2.

Definition starting (j : job) : log_record :=
  {| lvl := INFO;
     msg := "Starting slice at height " +:+ Py.str (height_of j);
     args := [] |}.

(** What [execute_slice] logs after the renderer has exited. *)
Definition finished (j : job) (code : Z) : log_record :=
  if code =? 0 then
    {| lvl := INFO;
       msg := "Completed slice at height " +:+ Py.str (height_of j);
       args := [] |}
  else
    {| lvl := ERROR; msg := "Command '%s' returned non-zero exit status %d";
       args := [AStrs (command j); AInt code] |}.

(** A renderer that cannot be launched. *)
Definition not_installed (cmd : list string) (f : filesystem)
  : outcome * filesystem :=
  (NotLaunched, f).

(** A renderer that always exits with status 1. *)
Definition always_fails (cmd : list string) (f : filesystem)
  : outcome * filesystem :=
  (Exited 1, f).

Definition two_heights : SlicingOperation :=
  with_slices (__init__ "out/slice_$height.dxf" "openscad" 4) [0; 5].

(** Whether the renderer of a job starts, whatever the file system. *)
Definition launches (run : list string → filesystem → outcome * filesystem)
    (j : job) : Prop :=
  ∀ f, (run (command j) f).1 ≠ NotLaunched.

Definition removing (self : SlicingOperation) : log_record :=
  {| lvl := INFO; msg := "Removing .scad file: %s";
     args := [AStr (scad_filename self)] |}.

(** The world after [slice] has removed the template. *)
Definition template_removed (self : SlicingOperation) (w : world) : world :=
  {| fs := {| files := delete (scad_filename self) (files (fs w));
              dirs := dirs (fs w) |};
     log := log w ++ [removing self];
     invocations := invocations w |}.

(** A renderer that removes the model file it was given. *)
Definition consumes_input (cmd : list string) (f : filesystem)
  : outcome * filesystem :=
  match cmd with
  | [_; _; _; _; scad_file] =>
      (Exited 0, {| files := delete scad_file (files f); dirs := dirs f |})
  | _ => (Exited 1, f)
  end.

(** * The command line runner *)

Module Logging.

(** [c.upper()] for one character. *)
Definition upper_char (c : ascii) : ascii :=
  if Ascii.leb "a" c && Ascii.leb c "z"
  then ascii_of_N (N_of_ascii c - 32) else c.

(** [s.upper()]. *)
Fixpoint upper (s : string) : string :=
  match s with
  | EmptyString => ""
  | String c r => String (upper_char c) (upper r)
  end.

(** [getattr(logging, name, None)] when it is an [int]: the attributes of the
    [logging] module that [upper] can name and that hold integers are the
    level constants. *)
Definition int_attr (name : string) : option Z :=
  if String.eqb name "CRITICAL" then Some 50
  else if String.eqb name "FATAL" then Some 50
  else if String.eqb name "ERROR" then Some 40
  else if String.eqb name "WARNING" then Some 30
  else if String.eqb name "WARN" then Some 30
  else if String.eqb name "INFO" then Some 20
  else if String.eqb name "DEBUG" then Some 10
  else if String.eqb name "NOTSET" then Some 0
  else None.

(** [logging.INFO]. *)
Definition INFO : Z := 20.

End Logging.

(** The options [run_from_cl] reads from the namespace [parse_cli] returns.
    [start] and [end_] hold the integers that [-st] and [-ed] parse to. *)
Module Props.

Record t : Type := {
  log_level : string;
  object_module : option (list string);
  key_module : option (list string);
  include : option (list string);
  start : Z;
  end_ : Z;
  step : option Z;
  number : option Z;
  output : string;
  scad_filename : string;
  keep_scad_file : bool;
  openscad_command : string;
  jobs : Z;
}.

End Props.

(** How a call of [run_from_cl] ends. *)
Inductive ending : Type :=
  | Returned
  | Raised (e : exn)
  | NameError (name : string).

(** What a call of [run_from_cl] leaves: the level given to
    [logging.basicConfig], how the call ended, and the world. *)
Record cl_run : Type := {
  root_level : Z;
  ended : ending;
  after : world;
}.

(** [if x:] for an optional integer: neither [None] nor zero. *)
Definition truthy (x : option Z) : option Z :=
  match x with
  | Some v => if v =? 0 then None else Some v
  | None => None
  end.

(** [x if x is not None else []]. *)
Definition or_empty (x : option (list string)) : list string :=
  match x with
  | Some l => l
  | None => []
  end.

(** The operation [run_from_cl] has configured before it sets the slices
    (lines 301-308). *)
Definition configured (props : Props.t) (object_module : list string)
  : SlicingOperation :=
  let sc := __init__ (Props.output props) (Props.openscad_command props)
              (Props.jobs props) in
  {| scad_includes := scad_includes sc ++ or_empty (Props.include props);
     scad_object_modules := scad_object_modules sc ++ object_module;
     scad_key_modules :=
       scad_key_modules sc ++ or_empty (Props.key_module props);
     keep_scad_file := Props.keep_scad_file props;
     scad_filename := Props.scad_filename props;
     _out_format := _out_format sc;
     _openscad_command := _openscad_command sc;
     _processes := _processes sc;
     _slices := _slices sc |}.

(** [levelno] of a record. *)
Definition levelno (l : level) : Z :=
  match l with
  | DEBUG => 10
  | INFO => 20
  | ERROR => 40
  end.

(** The world [w] reached from [w0] under [logging.basicConfig(level)]:
    of the records made since [w0] only those at or above the level are
    there.  Nothing in the program reads the log, so the records can be
    taken out at the end. *)
Definition emitted (level : Z) (w0 w : world) : world :=
  {| fs := fs w;
     log := log w0
            ++ filter (λ r, level ≤ levelno (lvl r))
                 (drop (length (log w0)) (log w));
     invocations := invocations w |}.

Section CommandLine.

Variable run : list string → filesystem → outcome * filesystem.
Variable sched : schedule.

(** [run_from_cl(props)] after the logging level is set (lines 293-315).
    The module never imports [sys], so the branch for a missing object
    module ends at the name [sys]. *)
Definition run_configured (props : Props.t) (w : world) : ending * world :=
  let w1 := (LOG.info "Hello, world!" [] w).2 in
  match Props.object_module props with
  | None => (NameError "sys", w1)
  | Some object_module =>
      let sc := configured props object_module in
      let set :=
        match truthy (Props.step props) with
        | Some step =>
            set_slices sc (Props.start props) (Props.end_ props)
              (Some step) None w1
        | None =>
            match truthy (Props.number props) with
            | Some number =>
                set_slices sc (Props.start props) (Props.end_ props)
                  None (Some number) w1
            | None => (Ok sc, w1)
            end
        end in
      match set with
      | (Raise e, w2) => (Raised e, w2)
      | (Ok sc', w2) =>
          match slice run sched sc' w2 with
          | (Raise e, w3) => (Raised e, w3)
          | (Ok _, w3) => (Returned, w3)
          end
      end
  end.

(** [run_from_cl(props)]: the level is looked up and given to
    [logging.basicConfig] (lines 289-292), and what follows logs under
    it. *)
Definition run_from_cl (props : Props.t) (w : world) : cl_run :=
  let log_level :=
    match Logging.int_attr (Logging.upper (Props.log_level props)) with
    | Some l => l
    | None => Logging.INFO
    end in
  let '(e, w') := run_configured props w in
  {| root_level := log_level; ended := e; after := emitted log_level w w' |}.

End CommandLine.

(** * Vocabulary of the further properties *)

Fixpoint all_id_char (s : string) : bool :=
  match s with
  | EmptyString => true
  | String c r => Template.is_id_char c && all_id_char r
  end.

(** [name] is matched whole by [idpattern]. *)
Definition is_identifier (name : string) : bool :=
  match name with
  | EmptyString => false
  | String c r => Template.is_id_start c && all_id_char r
  end.

(** The text ends an identifier that stands before it: it is empty or
    begins with a character that [idpattern] does not take. *)
Definition ends_identifier (s : string) : bool :=
  match s with
  | EmptyString => true
  | String c _ => negb (Template.is_id_char c)
  end.

Definition output_of (j : job) : string := j.1.2.

(** The exceptions of [string.Template.substitute]. *)
Definition template_error (e : exn) : Prop :=
  e = ValueError ∨ ∃ key, e = KeyError key.

(** The options with another [--number]. *)
Definition with_number (props : Props.t) (number : option Z) : Props.t :=
  {| Props.log_level := Props.log_level props;
     Props.object_module := Props.object_module props;
     Props.key_module := Props.key_module props;
     Props.include := Props.include props;
     Props.start := Props.start props;
     Props.end_ := Props.end_ props;
     Props.step := Props.step props;
     Props.number := number;
     Props.output := Props.output props;
     Props.scad_filename := Props.scad_filename props;
     Props.keep_scad_file := Props.keep_scad_file props;
     Props.openscad_command := Props.openscad_command props;
     Props.jobs := Props.jobs props |}.

(** Two heights, and the template is to be kept. *)
Definition kept : SlicingOperation :=
  {| scad_includes := [];
     scad_object_modules := ["block()"];
     scad_key_modules := [];
     keep_scad_file := true;
     scad_filename := "object_slice.scad";
     _out_format := "out/slice_$height.dxf";
     _openscad_command := "openscad";
     _processes := 4;
     _slices := [0; 5] |}.

(** The renderer never changes what the path [p] holds. *)
Definition leaves_alone
    (run : list string → filesystem → outcome * filesystem) (p : string)
  : Prop :=
  ∀ cmd f, files (run cmd f).2 !! p = files f !! p.

(** The workers take the jobs as they are listed and stop at a failure. *)
Definition in_order : schedule :=
  {| order := λ js, js;
     order_perm := λ js, reflexivity js;
     stragglers := 0 |}.

(** The workers take the last job first, and one more job is still run
    after a failure. *)
Definition racing : schedule :=
  {| order := reverse;
     order_perm := reverse_Permutation;
     stragglers := 1 |}.

(** The record of a job that was run and the status it exited with. *)
Definition started (r : job * Z) : list string * outcome :=
  (command r.1, Exited r.2).

Definition created_dir (self : SlicingOperation) : log_record :=
  {| lvl := INFO; msg := "Created output directory: %s";
     args := [AStr (Path.dirname (_out_format self))] |}.

(** Options for the examples: heights 0, 5, 10 of one block. *)
Definition example_props : Props.t :=
  {| Props.log_level := "debug";
     Props.object_module := Some ["block()"];
     Props.key_module := None;
     Props.include := None;
     Props.start := 0;
     Props.end_ := 10;
     Props.step := Some 5;
     Props.number := Some 7;
     Props.output := "out/slice_$height.dxf";
     Props.scad_filename := "object_slice.scad";
     Props.keep_scad_file := false;
     Props.openscad_command := "openscad";
     Props.jobs := 2 |}.

(** * Properties *)

(** ** Checks of the model on concrete inputs *)

Example subst_height :
  Template.substitute "./out/slice_$height.dxf" [("height", Py.str 25)]
  = Ok "./out/slice_25.dxf".
Proof. reflexivity. Qed.

Example subst_braced_escaped :
  Template.substitute "a$${$$}${h}_$h-" [("h", Py.str (-3))]
  = Ok "a${$}-3_-3-".
Proof. reflexivity. Qed.

Example subst_missing :
  Template.substitute "out/$h.dxf" [("height", "1")] = Raise (KeyError "h").
Proof. reflexivity. Qed.

Example subst_invalid :
  Template.substitute "out/$h.dxf$" [("h", "1")] = Raise ValueError.
Proof. reflexivity. Qed.

Example dirname_nested : Path.dirname "./out/a//slice_$height.dxf" = "./out/a".
Proof. reflexivity. Qed.

Example dirname_root : Path.dirname "//x" = "//".
Proof. reflexivity. Qed.

Example dirname_bare : Path.dirname "slice_$height.dxf" = "".
Proof. reflexivity. Qed.

(** ** [range] *)

Section RangeFacts.

Local Open Scope Z_scope.

Lemma range_items_length n a s : length (Py.range_items n a s) = n.
Proof.
  revert a. induction n as [|n IH]; intros a; simpl; [done|].
  by rewrite IH.
Qed.

(** The [k]-th element is [a + k * s]. *)
Lemma range_items_lookup n a s (k : nat) :
  (k < n)%nat → Py.range_items n a s !! k = Some (a + Z.of_nat k * s).
Proof.
  revert a k. induction n as [|n IH]; intros a k Hk; [lia|].
  destruct k as [|k]; simpl.
  - f_equal. lia.
  - rewrite IH by lia. f_equal. lia.
Qed.

Lemma range_items_elem n a s x :
  x ∈ Py.range_items n a s ↔ ∃ k : nat, (k < n)%nat ∧ x = a + Z.of_nat k * s.
Proof.
  rewrite list_elem_of_lookup. split.
  - intros [k Hk]. exists k.
    assert (k < n)%nat as Hlt.
    { apply lookup_lt_Some in Hk. by rewrite range_items_length in Hk. }
    rewrite range_items_lookup in Hk by done. split; congruence.
  - intros (k & Hk & ->). exists k. by apply range_items_lookup.
Qed.

Lemma range_items_increasing n a s :
  0 < s → StronglySorted Z.lt (Py.range_items n a s).
Proof.
  intros Hs. revert a. induction n as [|n IH]; intros a; simpl.
  - constructor.
  - constructor; [apply IH|].
    apply Forall_forall. intros x Hx.
    apply range_items_elem in Hx as (k & _ & ->). nia.
Qed.

Lemma range_items_last n a s :
  last (Py.range_items (S n) a s) = Some (a + Z.of_nat n * s).
Proof.
  rewrite last_lookup, range_items_length. cbn [Nat.pred].
  apply range_items_lookup. lia.
Qed.

(** With a positive step and [start ≤ end], [range(start, end + 1, step)]
    has [(end - start) / step + 1] items. *)
Lemma range_up start end_ step :
  0 < step → start ≤ end_ →
  Py.range start (end_ + 1) step
  = Ok (Py.range_items (S (Z.to_nat ((end_ - start) / step))) start step).
Proof.
  intros Hs Hle. unfold Py.range, Py.get_len_of_range.
  destruct (Z.eqb_spec step 0) as [->|_]; [lia|].
  destruct (Z.ltb_spec 0 step); [|lia].
  destruct (Z.ltb_spec start (end_ + 1)); [|lia].
  do 2 f_equal.
  replace (end_ + 1 - start - 1) with (end_ - start) by lia.
  assert (0 ≤ (end_ - start) / step) by (apply Z.div_pos; lia).
  lia.
Qed.

Lemma range_nonzero start stop step :
  step ≠ 0 → ∃ l, Py.range start stop step = Ok l.
Proof.
  intros Hs. unfold Py.range.
  destruct (Z.eqb_spec step 0); [done|]. eauto.
Qed.

End RangeFacts.

(** ** [set_slices] *)

(** [set_slices] raises what the computation of the heights raises and
    leaves the world as it was; otherwise it stores the heights and logs
    them. *)
Lemma set_slices_unfold self start end_ step num w :
  set_slices self start end_ step num w =
  match heights start end_ step num with
  | Ok l => (Ok (with_slices self l), logged_slices w l)
  | Raise e => (Raise e, w)
  end.
Proof.
  unfold set_slices, mbind, M_bind, bind, lift.
  by destruct (heights start end_ step num).
Qed.

(** C1: supplying both [step] and [num] raises (RuntimeError), supplying
    neither raises (TypeError, from dividing by [None]), in both cases
    without touching the instance or the world; [set_slices] returns a
    height sequence only when exactly one of the two is given. *)
Theorem set_slices_exactly_one self start end_ step num w :
  (is_Some step ∧ is_Some num →
     set_slices self start end_ step num w = (Raise RuntimeError, w))
  ∧ (step = None ∧ num = None →
     set_slices self start end_ step num w = (Raise TypeError, w))
  ∧ (∀ self' w', set_slices self start end_ step num w = (Ok self', w') →
     (is_Some step ∧ num = None) ∨ (step = None ∧ is_Some num)).
Proof.
  rewrite set_slices_unfold. split_and!.
  - by intros [[s ->] [n ->]].
  - by intros [-> ->].
  - intros self' w'. destruct step as [s|], num as [n|]; simpl; try done.
    + intros _. left. eauto.
    + intros _. right. eauto.
Qed.

Lemma set_slices_exactly_one_witness :
  let self := fresh in
  let w := empty_world in
  set_slices self 0 100 (Some 5) (Some 20) w = (Raise RuntimeError, w)
  ∧ set_slices self 0 100 None None w = (Raise TypeError, w).
Proof.
  intros self w. split.
  - apply (set_slices_exactly_one self 0 100 (Some 5) (Some 20) w). eauto.
  - apply (set_slices_exactly_one self 0 100 None None w). eauto.
Defined.

(** C2: for a positive [step] and [start ≤ end], [set_slices] stores the
    heights [start, start + step, start + 2 * step, ...]: strictly
    increasing, beginning at [start], none above [end], stopping only when
    the next one would pass [end], and ending at [end] itself when [step]
    divides [end - start]. *)
Theorem set_slices_step_sequence self start end_ step w :
  0 < step → start ≤ end_ →
  ∃ l,
    set_slices self start end_ (Some step) None w
    = (Ok (with_slices self l), logged_slices w l)
    ∧ (∀ k : nat, (k < length l)%nat →
         l !! k = Some (start + Z.of_nat k * step))
    ∧ StronglySorted Z.lt l
    ∧ head l = Some start
    ∧ Forall (λ h, h ≤ end_) l
    ∧ end_ < start + Z.of_nat (length l) * step
    ∧ (Z.divide step (end_ - start) → last l = Some end_).
Proof.
  intros Hs Hle.
  set (q := (end_ - start) / step).
  assert (0 ≤ q) as Hq by (apply Z.div_pos; lia).
  assert (q * step ≤ end_ - start) as Hlow.
  { rewrite Z.mul_comm. apply Z.mul_div_le. lia. }
  assert (end_ - start < (q + 1) * step) as Hupp.
  { pose proof (Z.mod_pos_bound (end_ - start) step Hs).
    pose proof (Z.div_mod (end_ - start) step ltac:(lia)). subst q. nia. }
  exists (Py.range_items (S (Z.to_nat q)) start step).
  rewrite set_slices_unfold.
  change (heights start end_ (Some step) None)
    with (Py.range start (end_ + 1) step).
  rewrite range_up by done. fold q.
  rewrite range_items_length. split_and!.
  - done.
  - intros k Hk. by apply range_items_lookup.
  - by apply range_items_increasing.
  - done.
  - apply Forall_forall. intros x Hx.
    apply range_items_elem in Hx as (k & Hk & ->). nia.
  - nia.
  - intros [c Hc]. rewrite range_items_last. f_equal.
    assert (q = c) as ->; [|lia].
    subst q. rewrite Hc. apply Z.div_mul. lia.
Qed.

Lemma set_slices_step_sequence_witness :
  ∃ l,
    set_slices fresh 0 10 (Some 3) None empty_world
    = (Ok (with_slices fresh l), logged_slices empty_world l)
    ∧ StronglySorted Z.lt l ∧ Forall (λ h, h ≤ 10) l.
Proof.
  destruct (set_slices_step_sequence fresh 0 10 3 empty_world)
    as (l & H1 & _ & H3 & _ & H5 & _); [lia | lia |].
  exists l. auto.
Defined.

Example heights_0_10_3 : heights 0 10 (Some 3) None = Ok [0; 3; 6; 9].
Proof. reflexivity. Qed.

Example heights_0_10_5 : heights 0 10 (Some 5) None = Ok [0; 5; 10].
Proof. reflexivity. Qed.

(** C4: with [num] given and [step] not, [set_slices] behaves as the step
    branch does for the step [(end - start) / num] (floor division); for
    [start = 0], [end = 100], [num = 4] the heights are
    [0, 25, 50, 75, 100]. *)
Theorem set_slices_num_derives_step self start end_ num w :
  num ≠ 0 →
  set_slices self start end_ None (Some num) w
  = set_slices self start end_ (Some ((end_ - start) / num)) None w
  ∧ set_slices self 0 100 None (Some 4) w
    = (Ok (with_slices self [0; 25; 50; 75; 100]),
       logged_slices w [0; 25; 50; 75; 100]).
Proof.
  intros Hn. rewrite !set_slices_unfold. split; [|done].
  unfold heights, Py.div. simpl.
  destruct (Z.eqb_spec num 0); done.
Qed.

Lemma set_slices_num_derives_step_witness :
  let self := fresh in
  let w := empty_world in
  set_slices self 0 10 None (Some 3) w
  = set_slices self 0 10 (Some (10 / 3)) None w.
Proof.
  intros self w.
  apply (set_slices_num_derives_step self 0 10 3 w). lia.
Defined.

(** C6, as claimed, fails: with [end = start] and with a negative step
    [set_slices] returns a sequence and raises nothing. *)
Lemma set_slices_no_order_check :
  let self := fresh in
  let w := empty_world in
  set_slices self 5 5 (Some 1) None w
  = (Ok (with_slices self [5]), logged_slices w [5])
  ∧ set_slices self 7 5 (Some 1) None w
    = (Ok (with_slices self []), logged_slices w [])
  ∧ set_slices self 0 10 (Some (-1)) None w
    = (Ok (with_slices self []), logged_slices w [])
  ∧ set_slices self 10 0 None (Some 2) w
    = (Ok (with_slices self [10; 5]), logged_slices w [10; 5]).
Proof. by split_and!. Qed.

(** C6, amended: [set_slices] raises when the step, given or derived from
    [num], is zero (ValueError) and when [num] is zero
    (ZeroDivisionError).  For any other step it returns a sequence whatever
    the order of [start] and [end]: empty when a positive step meets
    [end < start] or a negative step meets [start ≤ end + 1], and [start]
    alone when a positive step meets [end = start]. *)
Theorem set_slices_raises_on_zero self start end_ w :
  (∀ step,
     (step = 0 →
        set_slices self start end_ (Some step) None w = (Raise ValueError, w))
     ∧ (step ≠ 0 →
        ∃ l, set_slices self start end_ (Some step) None w
             = (Ok (with_slices self l), logged_slices w l)
          ∧ (0 < step → end_ < start → l = [])
          ∧ (0 < step → end_ = start → l = [start])
          ∧ (step < 0 → start ≤ end_ + 1 → l = [])))
  ∧ (∀ num,
     (num = 0 →
        set_slices self start end_ None (Some num) w
        = (Raise ZeroDivisionError, w))
     ∧ (num ≠ 0 → (end_ - start) / num = 0 →
        set_slices self start end_ None (Some num) w = (Raise ValueError, w))
     ∧ (num ≠ 0 → (end_ - start) / num ≠ 0 →
        ∃ l, set_slices self start end_ None (Some num) w
             = (Ok (with_slices self l), logged_slices w l))).
Proof.
  split.
  - intros step. split.
    + intros ->. by rewrite set_slices_unfold.
    + intros Hs. rewrite set_slices_unfold.
      change (heights start end_ (Some step) None)
        with (Py.range start (end_ + 1) step).
      unfold Py.range, Py.get_len_of_range.
      destruct (Z.eqb_spec step 0) as [|_]; [done|].
      eexists. split; [done|].
      destruct (Z.ltb_spec 0 step) as [Hpos|Hneg]; split_and!; intros; try lia.
      * destruct (Z.ltb_spec start (end_ + 1)); [lia|done].
      * subst end_.
        destruct (Z.ltb_spec start (start + 1)); [|lia].
        replace (start + 1 - start - 1) with 0 by lia.
        by rewrite Z.div_0_l by lia.
      * destruct (Z.ltb_spec (end_ + 1) start); [lia|done].
  - intros num.
    assert (num ≠ 0 →
            set_slices self start end_ None (Some num) w
            = set_slices self start end_ (Some ((end_ - start) / num)) None w)
      as Hstep.
    { intros Hn. rewrite !set_slices_unfold. unfold heights, Py.div. simpl.
      by destruct (Z.eqb_spec num 0). }
    split_and!.
    + intros ->. by rewrite set_slices_unfold.
    + intros Hn Hz. rewrite Hstep, Hz by done. by rewrite set_slices_unfold.
    + intros Hn Hnz. rewrite Hstep by done. rewrite set_slices_unfold.
      change (heights start end_ (Some ((end_ - start) / num)) None)
        with (Py.range start (end_ + 1) ((end_ - start) / num)).
      destruct (range_nonzero start (end_ + 1) _ Hnz) as [l ->]. eauto.
Qed.

Lemma set_slices_raises_on_zero_witness :
  let self := fresh in
  let w := empty_world in
  set_slices self 0 10 (Some 0) None w = (Raise ValueError, w)
  ∧ set_slices self 0 10 None (Some 0) w = (Raise ZeroDivisionError, w)
  ∧ set_slices self 0 3 None (Some 4) w = (Raise ValueError, w).
Proof.
  intros self w.
  destruct (set_slices_raises_on_zero self 0 10 w) as [Hs Hn].
  destruct (set_slices_raises_on_zero self 0 3 w) as [_ Hn'].
  split_and!.
  - by apply (Hs 0).
  - by apply (Hn 0).
  - by apply (Hn' 4).
Defined.

(** ** Template composition *)

Lemma contents_composed self :
  contents self
  = Ok (composed (import_str self) (object_str self) (key_str self)).
Proof.
  unfold contents. fold (import_str self) (object_str self) (key_str self).
  generalize (import_str self) (object_str self) (key_str self).
  intros i o k. reflexivity.
Qed.

Lemma string_app_assoc (a b c : string) : (a +:+ b) +:+ c = a +:+ (b +:+ c).
Proof.
  induction a as [|x a IH]; [done|].
  change (String x ((a +:+ b) +:+ c) = String x (a +:+ (b +:+ c))).
  by rewrite IH.
Qed.

Lemma string_app_nil_r (a : string) : a +:+ "" = a.
Proof.
  induction a as [|x a IH]; [done|].
  change (String x (a +:+ "") = String x a). by rewrite IH.
Qed.

Lemma occurs_in_app_l s t u : occurs_in s t → occurs_in s (t +:+ u).
Proof.
  intros (b & a & ->). exists b, (a +:+ u).
  by rewrite !string_app_assoc.
Qed.

Lemma occurs_in_app_r s t u : occurs_in s t → occurs_in s (u +:+ t).
Proof.
  intros (b & a & ->). exists (u +:+ b), a.
  by rewrite !string_app_assoc.
Qed.

Lemma occurs_in_refl s : occurs_in s s.
Proof. exists "", "". by rewrite string_app_nil_r. Qed.

(** Every joined item occurs in the joined text. *)
Lemma join_occurs sep (l : list string) x :
  x ∈ l → occurs_in x (Py.join sep l).
Proof.
  induction l as [|y l IH]; [by intros ?%elem_of_nil|].
  intros [->|Hx]%elem_of_cons.
  - destruct l as [|z l]; [apply occurs_in_refl|].
    change (Py.join sep (y :: z :: l))
      with (y +:+ sep +:+ Py.join sep (z :: l)).
    apply occurs_in_app_l, occurs_in_refl.
  - destruct l as [|z l]; [by apply elem_of_nil in Hx|].
    change (Py.join sep (y :: z :: l))
      with (y +:+ sep +:+ Py.join sep (z :: l)).
    apply occurs_in_app_r, occurs_in_app_r. by apply IH.
Qed.

(** C7: for all includes, object modules and key modules the composition
    succeeds and the text is the fixed skeleton around three joined lists:
    every include is imported, the cut plane is placed by the name
    [LAYER_HEIGHT] and the text does not depend on the heights, the object
    modules are the body of the first [union()], the key modules the body
    of the second, and both unions are the operands, in that order, of the
    [difference()] inside [projection(cut=true)]. *)
Theorem contents_structure self :
  contents self
  = Ok (composed (import_str self) (object_str self) (key_str self))
  ∧ (∀ i, i ∈ scad_includes self →
       occurs_in ("include <" +:+ i +:+ ">;") (import_str self))
  ∧ (∀ m, m ∈ scad_object_modules self →
       occurs_in (m +:+ ";") (object_str self))
  ∧ (∀ m, m ∈ scad_key_modules self → occurs_in (m +:+ ";") (key_str self))
  ∧ occurs_in "translate([0, 0, -LAYER_HEIGHT-0.001])"
      (composed (import_str self) (object_str self) (key_str self))
  ∧ (∀ l, contents (with_slices self l) = contents self).
Proof.
  split_and!.
  - apply contents_composed.
  - intros i Hi. apply join_occurs.
    by apply (list_elem_of_fmap_2 scad_include).
  - intros m Hm. apply join_occurs.
    by apply (list_elem_of_fmap_2 (λ m, m +:+ ";")).
  - intros m Hm. apply join_occurs.
    by apply (list_elem_of_fmap_2 (λ m, m +:+ ";")).
  - unfold composed. apply occurs_in_app_r, occurs_in_app_r, occurs_in_app_l.
    by exists "
projection(cut=true)
{
  ", "
  {
    difference()
    {
      union()
      {
        ".
  - done.
Qed.

(** [_make_slice_file] composes, logs the text, then writes it; the only
    thing it can raise is the IOError of [open]. *)
Lemma make_slice_file_unfold self w :
  _make_slice_file self w =
  if OS.can_open_w (fs w) (scad_filename self)
  then (Ok (), template_written self w)
  else (Raise IOError, with_log w (debug_contents self)).
Proof.
  unfold _make_slice_file, mbind, M_bind, bind, lift.
  rewrite contents_composed. fold (template_text self).
  unfold LOG.debug, LOG.emit, OS.write_file. cbn [fs with_log].
  destruct (OS.can_open_w (fs w) (scad_filename self)); [|done].
  unfold LOG.info, LOG.emit, template_written, with_log, with_fs. cbn.
  by rewrite <- app_assoc.
Qed.

(** C5, as claimed, fails: with no object module and no key module the
    template is composed and written, and nothing is raised. *)
Lemma make_slice_file_empty_modules :
  scad_object_modules fresh = [] ∧ scad_key_modules fresh = []
  ∧ _make_slice_file fresh empty_world
    = (Ok (), template_written fresh empty_world)
  ∧ files (fs (template_written fresh empty_world)) !! "object_slice.scad"
    = Some (composed "" "" "").
Proof. by split_and!. Qed.

(** C5, amended: empty module lists do not make template composition fail.
    With both lists empty it composes the template whose two unions are
    empty and, when the template file can be opened for writing, writes it
    there; otherwise it raises the IOError of [open] and writes nothing. *)
Theorem make_slice_file_no_module_check self w :
  scad_object_modules self = [] → scad_key_modules self = [] →
  contents self = Ok (composed (import_str self) "" "")
  ∧ (OS.can_open_w (fs w) (scad_filename self) = true →
     ∃ w', _make_slice_file self w = (Ok (), w')
       ∧ files (fs w') !! scad_filename self
         = Some (composed (import_str self) "" ""))
  ∧ (OS.can_open_w (fs w) (scad_filename self) = false →
     ∃ w', _make_slice_file self w = (Raise IOError, w') ∧ fs w' = fs w).
Proof.
  intros Ho Hk.
  assert (template_text self = composed (import_str self) "" "") as Ht.
  { unfold template_text, object_str, key_str. by rewrite Ho, Hk. }
  rewrite make_slice_file_unfold, contents_composed. fold (template_text self).
  split_and!.
  - by rewrite Ht.
  - intros ->. eexists. split; [done|].
    cbn. by rewrite lookup_insert_eq, Ht.
  - intros ->. eexists. split; done.
Qed.

Lemma make_slice_file_no_module_check_witness :
  ∃ w', _make_slice_file fresh empty_world = (Ok (), w')
    ∧ files (fs w') !! scad_filename fresh
      = Some (composed (import_str fresh) "" "").
Proof.
  apply (make_slice_file_no_module_check fresh empty_world); reflexivity.
Defined.

(** ** The output directory *)

Lemma upto_last_sep_no_sep p :
  Path.has_sep p = false → Path.upto_last_sep p = "".
Proof. destruct p; simpl; [done|]. by intros ->. Qed.

Lemma dirname_no_sep p : Path.has_sep p = false → Path.dirname p = "".
Proof. intros Hp. unfold Path.dirname. by rewrite upto_last_sep_no_sep. Qed.

Lemma upto_last_sep_nonempty p :
  Path.has_sep p = true → Path.upto_last_sep p ≠ "".
Proof. destruct p; simpl; [done|]. by intros ->. Qed.

Lemma rstrip_sep_nonempty head :
  Path.all_sep head = false → Path.rstrip_sep head ≠ "".
Proof. destruct head; simpl; [done|]. by intros ->. Qed.

(** The directory part is empty exactly when the pattern has no [/]. *)
Lemma dirname_empty_iff p : Path.dirname p = "" ↔ Path.has_sep p = false.
Proof.
  split; [|apply dirname_no_sep].
  destruct (Path.has_sep p) eqn:Hp; [|done].
  pose proof (upto_last_sep_nonempty p Hp) as Hne.
  unfold Path.dirname.
  destruct (String.eqb_spec (Path.upto_last_sep p) ""); [done|].
  destruct (Path.all_sep (Path.upto_last_sep p)) eqn:Ha; simpl; [done|].
  intros Hs. by apply rstrip_sep_nonempty in Ha.
Qed.

Section Orchestration.

Variable run : list string → filesystem → outcome * filesystem.
Variable sched : schedule.

(** C10: for every output pattern without a directory part the directory
    name is empty, the existence check is false, [os.makedirs] of the
    empty path raises OSError, and [slice] raises it with the world as it
    was: no template written, nothing logged, no renderer invoked.  So
    [_make_output_dir] returns only for a pattern with a directory
    part. *)
Theorem slice_bare_pattern_raises self w :
  Path.has_sep (_out_format self) = false →
  Path.dirname (_out_format self) = ""
  ∧ OS.exists_ (fs w) "" = false
  ∧ OS.makedirs "" w = (Raise OSError, w)
  ∧ _make_output_dir self w = (Raise OSError, w)
  ∧ slice run sched self w = (Raise OSError, w).
Proof.
  intros Hp. pose proof (dirname_no_sep _ Hp) as Hd.
  assert (_make_output_dir self w = (Raise OSError, w)) as Hm.
  { unfold _make_output_dir, mbind, M_bind, bind. by rewrite Hd. }
  split_and!; try done.
  unfold slice, dispatch, mbind, M_bind, bind. by rewrite Hm.
Qed.

(** [_make_output_dir] succeeds only with a directory part. *)
Lemma make_output_dir_ok_has_sep self w w' :
  _make_output_dir self w = (Ok (), w') →
  Path.has_sep (_out_format self) = true.
Proof.
  intros Hok. destruct (Path.has_sep (_out_format self)) eqn:Hp; [done|].
  unfold _make_output_dir, mbind, M_bind, bind in Hok.
  by rewrite (dirname_no_sep _ Hp) in Hok.
Qed.

End Orchestration.

Lemma slice_bare_pattern_raises_witness :
  let self := __init__ "slice_$height.dxf" "openscad" 4 in
  slice (λ _ f, (Exited 0, f)) in_order self empty_world
  = (Raise OSError, empty_world).
Proof.
  intros self.
  apply (slice_bare_pattern_raises (λ _ f, (Exited 0, f)) in_order self
           empty_world).
  reflexivity.
Defined.

(** ** The output pattern *)

(** A text without [$] is substituted to itself. *)
Lemma substitute_no_dollar mapping s :
  has_dollar s = false → Template.substitute s mapping = Ok s.
Proof.
  unfold Template.substitute. induction s as [|c s IH]; [done|].
  simpl. intros [Hc Hs]%orb_false_elim. rewrite Hc, IH by done. done.
Qed.

Lemma jobs_no_dollar self :
  has_dollar (_out_format self) = false →
  jobs self
  = Ok (map (λ h, (scad_filename self, h, _out_format self,
                   _openscad_command self)) (_slices self)).
Proof.
  intros Hp. unfold jobs. induction (_slices self) as [|h l IH]; [done|].
  simpl. rewrite IH. unfold mbind, result_bind. simpl.
  by rewrite substitute_no_dollar.
Qed.

(** C9, as claimed, fails: a pattern without the marker is not rejected;
    three heights give three jobs with one and the same output path, and
    the renderer is invoked for each of them. *)
Lemma slice_unmarked_pattern_shares_output :
  jobs unmarked
  = Ok [("object_slice.scad", 0, "out/slice.dxf", "openscad");
        ("object_slice.scad", 5, "out/slice.dxf", "openscad");
        ("object_slice.scad", 10, "out/slice.dxf", "openscad")]
  ∧ fst (slice writes_output in_order unmarked empty_world) = Ok ()
  ∧ invocations (snd (slice writes_output in_order unmarked empty_world))
    = [(["openscad"; "-DLAYER_HEIGHT=0"; "-o"; "out/slice.dxf";
         "object_slice.scad"], Exited 0);
       (["openscad"; "-DLAYER_HEIGHT=5"; "-o"; "out/slice.dxf";
         "object_slice.scad"], Exited 0);
       (["openscad"; "-DLAYER_HEIGHT=10"; "-o"; "out/slice.dxf";
         "object_slice.scad"], Exited 0)].
Proof. split_and!; vm_compute; reflexivity. Qed.

(** C9, amended: an output pattern that contains no [$] is accepted; the
    substitution returns it unchanged for every height, so one job per
    height is built and every job has the pattern itself as its output
    path. *)
Theorem jobs_unmarked_pattern self :
  has_dollar (_out_format self) = false →
  (∀ h, Template.substitute (_out_format self) [("height", Py.str h)]
        = Ok (_out_format self))
  ∧ ∃ js, jobs self = Ok js
    ∧ length js = length (_slices self)
    ∧ Forall (λ j : job, j.1.2 = _out_format self) js.
Proof.
  intros Hp. split.
  - intros h. by apply substitute_no_dollar.
  - eexists. split; [by apply jobs_no_dollar|]. split.
    + by rewrite length_map.
    + apply Forall_forall. intros j Hj.
      apply list_elem_of_fmap in Hj as (h & -> & _). done.
Qed.

Lemma jobs_unmarked_pattern_witness :
  ∃ js, jobs unmarked = Ok js
    ∧ length js = length (_slices unmarked)
    ∧ Forall (λ j : job, j.1.2 = _out_format unmarked) js.
Proof. apply (jobs_unmarked_pattern unmarked). reflexivity. Defined.

(** ** Dispatch *)

Section Dispatch.

Variable run : list string → filesystem → outcome * filesystem.
Variable sched : schedule.

(** A job whose renderer exits, with whatever status, raises nothing: the
  exit is logged and the invocation recorded. *)
Lemma execute_slice_exited j w code f' :
run (command j) (fs w) = (Exited code, f') →
execute_slice run j w
= (Ok (),
   {| fs := f'; log := log w ++ [starting j; finished j code];
      invocations := invocations w ++ [(command j, Exited code)] |}).
Proof.
destruct j as [[[scad_file height] output_file] openscad]. intros Hrun.
unfold execute_slice, try_except, mbind, M_bind, bind, check_call.
unfold LOG.info, LOG.error, LOG.emit. cbn [fs with_log log invocations].
unfold command in Hrun. rewrite Hrun.
unfold finished, starting, height_of, command, with_log.
destruct (code =? 0); cbn; by rewrite <- app_assoc.
Qed.

(** A job whose renderer cannot be launched raises OSError. *)
Lemma execute_slice_not_launched j w f' :
run (command j) (fs w) = (NotLaunched, f') →
execute_slice run j w
= (Raise OSError,
   {| fs := fs w; log := log w ++ [starting j];
      invocations := invocations w ++ [(command j, NotLaunched)] |}).
Proof.
destruct j as [[[scad_file height] output_file] openscad]. intros Hrun.
unfold execute_slice, try_except, mbind, M_bind, bind, check_call.
unfold LOG.info, LOG.error, LOG.emit. cbn [fs with_log log invocations].
unfold command in Hrun. by rewrite Hrun.
Qed.

(** One job: the renderer is invoked once; the job raises exactly when the
    process cannot be started, and then it raises OSError. *)
Lemma execute_slice_outcome j w :
  (∃ code f', run (command j) (fs w) = (Exited code, f')
     ∧ execute_slice run j w
       = (Ok (),
          {| fs := f'; log := log w ++ [starting j; finished j code];
             invocations := invocations w ++ [started (j, code)] |}))
  ∨ (∃ f', run (command j) (fs w) = (NotLaunched, f')
     ∧ execute_slice run j w
       = (Raise OSError,
          {| fs := fs w; log := log w ++ [starting j];
             invocations := invocations w ++ [(command j, NotLaunched)] |})).
Proof.
  destruct (run (command j) (fs w)) as [[code|] f'] eqn:Hrun.
  - left. exists code, f'. split; [done|].
    exact (execute_slice_exited j w code f' Hrun).
  - right. exists f'. split; [done|].
    exact (execute_slice_not_launched j w f' Hrun).
Qed.

(** The jobs the workers have run when [work] returns: each once, in the
    order they were taken, each with its exit logged.  What [work] raises
    is OSError. *)
Lemma work_inv more js w r w' :
  work (execute_slice run) more js w = (r, w') →
  match r with
  | Ok _ =>
      ∃ rs new, rs.*1 = js
        ∧ invocations w' = (invocations w ++ map started rs)%list
        ∧ log w' = (log w ++ new)%list
        ∧ ∀ x, x ∈ rs → finished x.1 x.2 ∈ new
  | Raise e => e = OSError
  end.
Proof.
  revert w r w'. induction js as [|j js IH]; intros w r w'.
  - intros [= <- <-]. exists [], []. rewrite !app_nil_r.
    split_and!; [done..|]. by intros x ?%elem_of_nil.
  - cbn [work].
    destruct (execute_slice_outcome j w)
      as [(code & f' & _ & ->)|(f' & _ & ->)].
    + intros Hrest. apply IH in Hrest. destruct r as [[]|e]; [|done].
      destruct Hrest as (rs & new & Hrs & Hinv & Hlog & Hfin).
      exists ((j, code) :: rs), ([starting j; finished j code] ++ new)%list.
      cbn [invocations log] in Hinv, Hlog. split_and!.
      * cbn. by rewrite Hrs.
      * rewrite Hinv. cbn [map]. by rewrite <- app_assoc.
      * rewrite Hlog. by rewrite <- app_assoc.
      * intros x [->|Hx]%elem_of_cons.
        -- cbn. set_solver.
        -- apply elem_of_app. right. by apply Hfin.
    + by intros [= <- <-].
Qed.

Lemma work_all_launched more js w :
  Forall (launches run) js →
  ∃ w', work (execute_slice run) more js w = (Ok (), w').
Proof.
  intros Hall. revert w. induction Hall as [|j js Hj _ IH]; intros w.
  - by exists w.
  - cbn [work].
    destruct (execute_slice_outcome j w)
      as [(code & f' & _ & ->)|(f' & Hrun & _)].
    + apply IH.
    + exfalso. apply (Hj (fs w)). by rewrite Hrun.
Qed.

Lemma work_not_launched more js j w :
  j ∈ js → (∀ f, (run (command j) f).1 = NotLaunched) →
  (work (execute_slice run) more js w).1 = Raise OSError.
Proof.
  intros Hin Hj. revert w. induction js as [|j1 js IH]; intros w.
  - by apply elem_of_nil in Hin.
  - cbn [work].
    destruct (execute_slice_outcome j1 w)
      as [(code & f' & Hrun & ->)|(f' & _ & ->)]; [|done].
    apply elem_of_cons in Hin as [<-|Hin]; [|by apply IH].
    specialize (Hj (fs w)). by rewrite Hrun in Hj.
Qed.

(** When [pool.map] returns, every job has been run exactly once, in the
    order of the schedule, and its exit is in the log; what it raises is
    OSError. *)
Lemma pool_map_inv js w r w' :
  pool_map sched (execute_slice run) js w = (r, w') →
  match r with
  | Ok l =>
      l = replicate (length js) ()
      ∧ ∃ rs, rs.*1 ≡ₚ js
        ∧ invocations w' = (invocations w ++ map started rs)%list
        ∧ ∀ x, x ∈ rs → finished x.1 x.2 ∈ log w'
  | Raise e => e = OSError
  end.
Proof.
  unfold pool_map, mbind, M_bind, bind.
  destruct (work _ _ _ w) as [[[]|e] w1] eqn:Hwork;
    apply work_inv in Hwork; intros [= <- <-]; [|done].
  destruct Hwork as (rs & new & Hrs & Hinv & Hlog & Hfin).
  split; [done|]. exists rs. split_and!.
  - rewrite Hrs. apply order_perm.
  - done.
  - intros x Hx. rewrite Hlog. apply elem_of_app. right. by apply Hfin.
Qed.

Lemma pool_map_all_launched js w :
  Forall (launches run) js →
  ∃ w', pool_map sched (execute_slice run) js w
        = (Ok (replicate (length js) ()), w').
Proof.
  intros Hall. rewrite <- (order_perm sched js) in Hall.
  destruct (work_all_launched (stragglers sched) _ w Hall) as [w' Hw].
  exists w'. unfold pool_map, mbind, M_bind, bind. by rewrite Hw.
Qed.

Lemma pool_map_not_launched js j w :
  j ∈ js → (∀ f, (run (command j) f).1 = NotLaunched) →
  (pool_map sched (execute_slice run) js w).1 = Raise OSError.
Proof.
  intros Hin Hj. rewrite <- (order_perm sched js) in Hin.
  pose proof (work_not_launched (stragglers sched) _ j w Hin Hj) as Hw.
  unfold pool_map, mbind, M_bind, bind.
  destruct (work _ _ _ w) as [[[]|e] w1]; [done|].
  simpl in Hw. injection Hw as ->. done.
Qed.

End Dispatch.

(** ** Cleanup *)

Lemma cleanup_unfold self w :
  cleanup self w =
  if keep_scad_file self then (Ok (), w)
  else match files (fs w) !! scad_filename self with
       | Some _ => (Ok (), template_removed self w)
       | None => (Raise OSError, with_log w (removing self))
       end.
Proof.
  unfold cleanup. destruct (keep_scad_file self); [done|].
  unfold mbind, M_bind, bind, LOG.info, LOG.emit, OS.remove. cbn.
  by destruct (files (fs w) !! scad_filename self).
Qed.

Lemma slice_unfold run sched self w :
  slice run sched self w =
  match dispatch run sched self w with
  | (Ok _, w1) => cleanup self w1
  | (Raise e, w1) => (Raise e, w1)
  end.
Proof. done. Qed.

(** C8, as claimed, fails: when the template is gone by the time of the
    cleanup, the OSError of [os.remove] is raised out of [slice]; the last
    thing logged is the announcement of the removal. *)
Lemma slice_remove_failure_raises :
  (slice consumes_input in_order two_heights empty_world).1 = Raise OSError
  ∧ last (log (slice consumes_input in_order two_heights empty_world).2)
    = Some (removing two_heights).
Proof. split; vm_compute; reflexivity. Qed.

(** C8, amended: once the dispatch has returned, [slice] leaves the world
    as it is when the retain flag is set, and otherwise logs the removal
    and deletes the template file; when that deletion fails, its OSError
    is raised out of [slice] and nothing more is logged. *)
Theorem slice_cleanup run sched self w w1 :
  dispatch run sched self w = (Ok (), w1) →
  (keep_scad_file self = true → slice run sched self w = (Ok (), w1))
  ∧ (keep_scad_file self = false →
     is_Some (files (fs w1) !! scad_filename self) →
     slice run sched self w = (Ok (), template_removed self w1)
     ∧ files (fs (template_removed self w1)) !! scad_filename self = None)
  ∧ (keep_scad_file self = false →
     files (fs w1) !! scad_filename self = None →
     slice run sched self w = (Raise OSError, with_log w1 (removing self))).
Proof.
  intros Hd. rewrite slice_unfold, Hd, cleanup_unfold. split_and!.
  - by intros ->.
  - intros -> [c Hc]. rewrite Hc. split; [done|].
    cbn. apply lookup_delete_eq.
  - intros -> Hc. by rewrite Hc.
Qed.

Lemma slice_cleanup_witness :
  slice writes_output in_order two_heights empty_world
  = (Ok (),
     template_removed two_heights
       (dispatch writes_output in_order two_heights empty_world).2).
Proof.
  apply (slice_cleanup writes_output in_order two_heights empty_world
           (dispatch writes_output in_order two_heights empty_world).2).
  - vm_compute. reflexivity.
  - reflexivity.
  - vm_compute. eauto.
Defined.

(** * Further properties *)

(** ** More on [set_slices] *)

Lemma range_items_decreasing n a s :
  s < 0 → StronglySorted (flip Z.lt) (Py.range_items n a s).
Proof.
  intros Hs. revert a. induction n as [|n IH]; intros a; simpl.
  - constructor.
  - constructor; [apply IH|].
    apply Forall_forall. intros x Hx.
    apply range_items_elem in Hx as (k & _ & ->). unfold flip. nia.
Qed.

(** X1: a count [num] with [0 < num ≤ end - start] is only approximated:
    [set_slices] stores at least [num + 1] and at most [2 * num]
    heights. *)
Theorem set_slices_count_bounds self start end_ num w :
  0 < num → num ≤ end_ - start →
  ∃ l, set_slices self start end_ None (Some num) w
       = (Ok (with_slices self l), logged_slices w l)
    ∧ num + 1 ≤ Z.of_nat (length l) ≤ 2 * num.
Proof.
  intros Hn Hd.
  set (d := end_ - start). set (s := d / num).
  assert (1 ≤ s) as Hs.
  { subst s. apply Z.div_le_lower_bound; lia. }
  assert (num * s ≤ d) as Hlow by (subst s; apply Z.mul_div_le; lia).
  assert (d < num * s + num) as Hupp.
  { pose proof (Z.mod_pos_bound d num Hn).
    pose proof (Z.div_mod d num ltac:(lia)). subst s. lia. }
  assert (num ≤ d / s) as Hq1 by (apply Z.div_le_lower_bound; lia).
  assert (d / s < 2 * num) as Hq2 by (apply Z.div_lt_upper_bound; nia).
  exists (Py.range_items (S (Z.to_nat (d / s))) start s).
  rewrite set_slices_unfold. unfold heights, Py.div.
  destruct (Z.eqb_spec num 0); [lia|].
  cbn [mbind result_bind rbind]. fold d. fold s.
  rewrite range_up by lia. fold d.
  rewrite range_items_length. split; [done|]. lia.
Qed.

Lemma set_slices_count_bounds_witness :
  ∃ l, set_slices fresh 0 10 None (Some 4) empty_world
       = (Ok (with_slices fresh l), logged_slices empty_world l)
    ∧ 4 + 1 ≤ Z.of_nat (length l) ≤ 2 * 4.
Proof. apply (set_slices_count_bounds fresh 0 10 4 empty_world); lia. Defined.

(** X2: with a negative [step], [set_slices] stores the descending heights
    [start, start + step, ...]; each of them is above [end + 1], so [end] is
    never among them, and there is none at all unless
    [start > end + 1]. *)
Theorem set_slices_descending self start end_ step w :
  step < 0 →
  ∃ l, set_slices self start end_ (Some step) None w
       = (Ok (with_slices self l), logged_slices w l)
    ∧ (∀ k : nat, (k < length l)%nat →
         l !! k = Some (start + Z.of_nat k * step))
    ∧ StronglySorted (flip Z.lt) l
    ∧ Forall (λ h, end_ + 1 < h) l
    ∧ (l = [] ↔ start ≤ end_ + 1).
Proof.
  intros Hs. rewrite set_slices_unfold.
  change (heights start end_ (Some step) None)
    with (Py.range start (end_ + 1) step).
  unfold Py.range, Py.get_len_of_range.
  destruct (Z.eqb_spec step 0); [lia|].
  destruct (Z.ltb_spec 0 step); [lia|].
  eexists. split; [done|].
  rewrite range_items_length.
  destruct (Z.ltb_spec (end_ + 1) start) as [Hlt|Hge].
  - set (q := (start - (end_ + 1) - 1) / - step).
    assert (0 ≤ q) as Hq by (apply Z.div_pos; lia).
    assert (- step * q ≤ start - (end_ + 1) - 1) as Hlow.
    { apply Z.mul_div_le. lia. }
    replace (Z.to_nat (q + 1)) with (S (Z.to_nat q)) by lia.
    split_and!.
    + intros k Hk. by apply range_items_lookup.
    + by apply range_items_decreasing.
    + apply Forall_forall. intros x Hx.
      apply range_items_elem in Hx as (k & Hk & ->). nia.
    + split; [done|lia].
  - split_and!; [simpl; intros; lia|constructor|constructor|done].
Qed.

Lemma set_slices_descending_witness :
  ∃ l, set_slices fresh 10 0 (Some (-5)) None empty_world
       = (Ok (with_slices fresh l), logged_slices empty_world l)
    ∧ Forall (λ h, 0 + 1 < h) l.
Proof.
  destruct (set_slices_descending fresh 10 0 (-5) empty_world)
    as (l & H1 & _ & _ & H4 & _); [lia|].
  exists l. auto.
Defined.

(** ** The output pattern, with a placeholder *)

Lemma string_length_app (a b : string) :
  String.length (a +:+ b) = (String.length a + String.length b)%nat.
Proof.
  induction a as [|x a IH]; [done|].
  change (S (String.length (a +:+ b))
          = S (String.length a + String.length b)).
  by rewrite IH.
Qed.

(** Appending on the right is injective. *)
Lemma string_app_inj_r (a b s : string) : a +:+ s = b +:+ s → a = b.
Proof.
  revert b. induction a as [|x a IH]; intros [|y b] Heq.
  - done.
  - apply (f_equal String.length) in Heq.
    rewrite !string_length_app in Heq. simpl in Heq. lia.
  - apply (f_equal String.length) in Heq.
    rewrite !string_length_app in Heq. simpl in Heq. lia.
  - change (String x (a +:+ s) = String y (b +:+ s)) in Heq.
    injection Heq as -> Heq. f_equal. by apply IH.
Qed.

(** Text without [$] is copied. *)
Lemma scan_text_prefix mapping pre rest :
  has_dollar pre = false →
  Template.scan mapping Template.Text (pre +:+ rest)
  = rbind (Template.scan mapping Template.Text rest)
      (λ r, Ok (pre +:+ r)).
Proof.
  induction pre as [|c pre IH]; intros Hp.
  - change ("" +:+ rest) with rest.
    by destruct (Template.scan mapping Template.Text rest).
  - simpl in Hp. apply orb_false_elim in Hp as [Hc Hp].
    change (String c pre +:+ rest) with (String c (pre +:+ rest)).
    cbn [Template.scan]. rewrite Hc, IH by done.
    by destruct (Template.scan mapping Template.Text rest).
Qed.

(** A name is read to its end, looked up, and the text after it scanned. *)
Lemma scan_named mapping acc name suf :
  all_id_char name = true → ends_identifier suf = true →
  Template.scan mapping (Template.Named acc) (name +:+ suf)
  = rbind (Template.lookup mapping (acc +:+ name)) (λ v,
    rbind (Template.scan mapping Template.Text suf) (λ r, Ok (v +:+ r))).
Proof.
  revert acc. induction name as [|c name IH]; intros acc Hn Hs.
  - change ("" +:+ suf) with suf. rewrite string_app_nil_r.
    destruct suf as [|c s'].
    + cbn [Template.scan].
      destruct (Template.lookup mapping acc) as [v|]; [|done].
      cbn [rbind]. by rewrite string_app_nil_r.
    + simpl in Hs. apply negb_true_iff in Hs.
      cbn [Template.scan]. by rewrite Hs.
  - simpl in Hn. apply andb_prop in Hn as [Hc Hn].
    change (String c name +:+ suf) with (String c (name +:+ suf)).
    cbn [Template.scan]. rewrite Hc, IH by done.
    unfold Template.snoc. rewrite string_app_assoc. done.
Qed.

(** [pre$name suf]: the value of [name] between [pre] and the substituted
    [suf]. *)
Lemma substitute_placeholder mapping pre name suf :
  has_dollar pre = false → is_identifier name = true →
  ends_identifier suf = true →
  Template.substitute (pre +:+ "$" +:+ name +:+ suf) mapping
  = rbind (Template.lookup mapping name) (λ v,
    rbind (Template.substitute suf mapping) (λ r, Ok (pre +:+ v +:+ r))).
Proof.
  intros Hp Hn Hs. unfold Template.substitute.
  rewrite scan_text_prefix by done.
  destruct name as [|c name]; [done|].
  simpl in Hn. apply andb_prop in Hn as [Hc Hn].
  change ("$" +:+ String c name +:+ suf)
    with (String "$" (String c (name +:+ suf))).
  cbn [Template.scan]. cbn [Ascii.eqb Bool.eqb andb].
  replace (Ascii.eqb c "$") with false.
  2:{ symmetry. apply Ascii.eqb_neq. intros ->. done. }
  rewrite Hc, scan_named by done.
  change (String c "" +:+ name) with (String c name).
  destruct (Template.lookup mapping (String c name)) as [v|]; [|done].
  cbn [rbind].
  by destruct (Template.scan mapping Template.Text suf).
Qed.

Lemma rmap_ok {A B} (f : A → result B) (g : A → B) (l : list A) :
  (∀ x, f x = Ok (g x)) → rmap f l = Ok (map g l).
Proof.
  intros Hf. induction l as [|x l IH]; [done|].
  simpl. by rewrite Hf, IH.
Qed.


(** The heights of a successful [range] are pairwise different. *)
Lemma range_NoDup start stop step l :
  Py.range start stop step = Ok l → NoDup l.
Proof.
  unfold Py.range. destruct (Z.eqb_spec step 0) as [|Hs]; [done|].
  intros [= <-]. apply NoDup_alt. intros i j x Hi Hj.
  pose proof (lookup_lt_Some _ _ _ Hi) as Hli.
  pose proof (lookup_lt_Some _ _ _ Hj) as Hlj.
  rewrite range_items_length in Hli, Hlj.
  rewrite range_items_lookup in Hi, Hj by done.
  simplify_eq. nia.
Qed.

Lemma heights_NoDup start end_ step num l :
  heights start end_ step num = Ok l → NoDup l.
Proof.
  unfold heights, Py.div. destruct step as [s|], num as [n|]; try done.
  - apply range_NoDup.
  - destruct (Z.eqb_spec n 0); [done|]. apply range_NoDup.
Qed.

(** The output path of a height under [pre$height suf] determines the
    height. *)
Lemma output_path_inj pre suf :
  Inj (=) (=) (λ h : Z, pre +:+ Py.str h +:+ suf).
Proof.
  intros h1 h2 Heq. apply (inj (String.app pre)) in Heq.
  apply string_app_inj_r in Heq. by apply (inj pretty) in Heq.
Qed.

Lemma jobs_marked self pre suf :
  _out_format self = pre +:+ "$height" +:+ suf →
  has_dollar pre = false → has_dollar suf = false →
  ends_identifier suf = true →
  jobs self
  = Ok (map (λ h, (scad_filename self, h, pre +:+ Py.str h +:+ suf,
                   _openscad_command self)) (_slices self)).
Proof.
  intros Hfmt Hp Hs He. unfold jobs. apply rmap_ok. intros h.
  rewrite Hfmt.
  rewrite (substitute_placeholder _ pre "height" suf) by done.
  cbn [Template.lookup String.eqb Ascii.eqb Bool.eqb rbind].
  by rewrite substitute_no_dollar.
Qed.

(** X3: with an output pattern [pre$height suf] ([$height] once, followed
    by a character that cannot continue the name), the heights that
    [set_slices] stores give one job each, in order, and no two jobs write
    to the same output path. *)
Theorem set_slices_jobs_distinct_outputs self start end_ step num w
    self' w' pre suf :
  _out_format self = pre +:+ "$height" +:+ suf →
  has_dollar pre = false → has_dollar suf = false →
  ends_identifier suf = true →
  set_slices self start end_ step num w = (Ok self', w') →
  ∃ js, jobs self' = Ok js
    ∧ map height_of js = _slices self'
    ∧ (∀ j, j ∈ js →
         output_of j = pre +:+ Py.str (height_of j) +:+ suf)
    ∧ NoDup (map output_of js).
Proof.
  intros Hfmt Hp Hs He. rewrite set_slices_unfold.
  destruct (heights start end_ step num) as [l|] eqn:Hl; [|done].
  intros [= <- <-]. apply heights_NoDup in Hl.
  eexists. split; [by apply (jobs_marked _ pre suf)|].
  cbn [_slices with_slices]. split_and!.
  - rewrite map_map. apply map_id.
  - intros j (h & -> & _)%list_elem_of_fmap. done.
  - rewrite map_map.
    pose proof (output_path_inj pre suf) as Hinj.
    by apply (NoDup_fmap_2 (λ h : Z, pre +:+ Py.str h +:+ suf)).
Qed.

Lemma set_slices_jobs_distinct_outputs_witness :
  ∃ js, jobs (with_slices fresh [0; 5; 10]) = Ok js
    ∧ map height_of js = [0; 5; 10]
    ∧ (∀ j, j ∈ js →
         output_of j
         = "./out/slice_" +:+ Py.str (height_of j) +:+ ".dxf")
    ∧ NoDup (map output_of js).
Proof.
  apply (set_slices_jobs_distinct_outputs fresh 0 10 (Some 5) None
           empty_world (with_slices fresh [0; 5; 10])
           (logged_slices empty_world [0; 5; 10]) "./out/slice_" ".dxf");
    reflexivity.
Defined.



(** ** The output directory and the template file *)

Lemma ancestors_head fuel p :
  p ≠ "" → ∃ rest, OS.ancestors (S fuel) p = p :: rest.
Proof.
  intros Hp. cbn [OS.ancestors].
  destruct (String.eqb_spec p ""); [done|]. eauto.
Qed.

(** [_make_output_dir] either raises OSError and changes nothing, or
    returns with the directory in place, no file touched, no directory
    lost, and one line logged. *)
Lemma make_output_dir_cases self w :
  _make_output_dir self w = (Raise OSError, w)
  ∨ ∃ f, _make_output_dir self w
         = (Ok (), with_log (with_fs w f) (created_dir self))
      ∧ files f = files (fs w)
      ∧ dirs (fs w) ⊆ dirs f
      ∧ OS.exists_ f (Path.dirname (_out_format self)) = true
      ∧ (OS.exists_ (fs w) (Path.dirname (_out_format self)) = true →
         f = fs w).
Proof.
  unfold _make_output_dir, mbind, M_bind, bind.
  set (d := Path.dirname (_out_format self)).
  destruct (OS.exists_ (fs w) d) eqn:Hex; cbn [negb].
  - right. exists (fs w). by split_and!.
  - unfold OS.makedirs.
    destruct (String.eqb_spec d "") as [|Hd]; [by left|].
    rewrite Hex.
    destruct (existsb _ _); [by left|]. right.
    eexists. split; [done|]. cbn [files dirs]. split_and!.
    + done.
    + set_solver.
    + unfold OS.exists_. cbn [dirs].
      destruct (String.eqb_spec d ""); [done|]. cbn [negb andb].
      destruct (ancestors_head (String.length d) d Hd) as [rest ->].
      apply orb_true_iff. left. apply bool_decide_eq_true. set_solver.
    + done.
Qed.

(** X5: when [_make_output_dir] returns, the directory of the output
    pattern exists, no file was touched and no directory lost; the line
    [Created output directory] is logged whether or not anything was
    created; and a second call returns too and leaves the file system as it
    is. *)
Theorem make_output_dir_idempotent self w w' :
  _make_output_dir self w = (Ok (), w') →
  OS.exists_ (fs w') (Path.dirname (_out_format self)) = true
  ∧ files (fs w') = files (fs w)
  ∧ dirs (fs w) ⊆ dirs (fs w')
  ∧ log w' = (log w ++ [created_dir self])%list
  ∧ invocations w' = invocations w
  ∧ _make_output_dir self w' = (Ok (), with_log w' (created_dir self)).
Proof.
  intros Hok.
  destruct (make_output_dir_cases self w) as [Hr|(f & Hf & ? & ? & Hex & _)];
    [congruence|].
  rewrite Hok in Hf. injection Hf as ->. cbn [fs with_log with_fs].
  split_and!; try done.
  destruct (make_output_dir_cases self (with_log (with_fs w f)
                                          (created_dir self)))
    as [Hr|(f' & Hf' & _ & _ & _ & Hsame)].
  - exfalso. revert Hr.
    unfold _make_output_dir, mbind, M_bind, bind. cbn [fs with_log with_fs].
    by rewrite Hex.
  - cbn [fs with_log with_fs] in Hsame. rewrite (Hsame Hex) in Hf'.
    rewrite Hf'. done.
Qed.

Lemma make_output_dir_idempotent_witness :
  let w' := (_make_output_dir fresh empty_world).2 in
  OS.exists_ (fs w') "./out" = true
  ∧ _make_output_dir fresh w' = (Ok (), with_log w' (created_dir fresh)).
Proof.
  intros w'.
  destruct (make_output_dir_idempotent fresh empty_world w')
    as (H1 & _ & _ & _ & _ & H6); [reflexivity|].
  split; [exact H1|exact H6].
Defined.

(** X6: when [_make_slice_file] returns, the template file holds the
    composed text, whatever it held before, and every other file and every
    directory is as it was; when it raises, it raises IOError and the file
    system is as it was. *)
Theorem make_slice_file_overwrites self w r w' :
  _make_slice_file self w = (r, w') →
  invocations w' = invocations w
  ∧ dirs (fs w') = dirs (fs w)
  ∧ match r with
    | Ok _ =>
        files (fs w') !! scad_filename self = Some (template_text self)
        ∧ ∀ p, p ≠ scad_filename self →
               files (fs w') !! p = files (fs w) !! p
    | Raise e => e = IOError ∧ files (fs w') = files (fs w)
    end.
Proof.
  rewrite make_slice_file_unfold.
  destruct (OS.can_open_w (fs w) (scad_filename self));
    intros [= <- <-]; cbn; split_and!; try done.
  - apply lookup_insert_eq.
  - intros p Hp. by apply lookup_insert_ne.
Qed.

Lemma make_slice_file_overwrites_witness :
  let w := with_fs empty_world
             {| files := {["object_slice.scad" := "old text"]};
                dirs := ∅ |} in
  files (fs (_make_slice_file fresh w).2) !! "object_slice.scad"
  = Some (template_text fresh).
Proof.
  intros w.
  pose proof (make_slice_file_overwrites fresh w
                (_make_slice_file fresh w).1 (_make_slice_file fresh w).2)
    as H.
  destruct H as (_ & _ & H); [by destruct (_make_slice_file fresh w)|].
  change ((_make_slice_file fresh w).1) with (@Ok unit ()) in H.
  exact (proj1 H).
Defined.

(** ** What [slice] does, step by step *)

(** [string.Template] raises ValueError and KeyError only. *)
Lemma lookup_raise_inv mapping name e :
  Template.lookup mapping name = Raise e → e = KeyError name.
Proof.
  induction mapping as [|[k v] mapping IH]; simpl; [congruence|].
  destruct (String.eqb k name); [done|apply IH].
Qed.

Lemma rbind_raise_inv {A B} (r : result A) (k : A → result B) e :
  rbind r k = Raise e → r = Raise e ∨ ∃ a, r = Ok a ∧ k a = Raise e.
Proof. destruct r; simpl; eauto. intros [= ->]. by left. Qed.

Lemma scan_raise_inv mapping st s e :
  Template.scan mapping st s = Raise e → template_error e.
Proof.
  revert st. induction s as [|c s IH]; intros st.
  - destruct st; simpl; intros H; try (left; congruence).
    right. eexists. by eapply lookup_raise_inv.
  - assert ((if Ascii.eqb c "$" then Template.scan mapping Template.Dollar s
             else rbind (Template.scan mapping Template.Text s)
                    (λ r, Ok (String c r))) = Raise e →
            template_error e) as Htext.
    { destruct (Ascii.eqb c "$"); [apply IH|].
      intros [Hr|(? & _ & [=])]%rbind_raise_inv. by eapply IH. }
    destruct st; cbn [Template.scan].
    + apply Htext.
    + destruct (Ascii.eqb c "$").
      { intros [Hr|(? & _ & [=])]%rbind_raise_inv. by eapply IH. }
      destruct (Template.is_id_start c); [apply IH|].
      destruct (Ascii.eqb c "{"); [apply IH|]. intros [= <-]. by left.
    + destruct (Template.is_id_char c); [apply IH|].
      intros [Hr|(v & _ & [Hr|(? & _ & [=])]%rbind_raise_inv)]%rbind_raise_inv.
      * right. eexists. by eapply lookup_raise_inv.
      * by apply Htext.
    + destruct (Template.is_id_start c); [apply IH|]. intros [= <-]. by left.
    + destruct (Template.is_id_char c); [apply IH|].
      destruct (Ascii.eqb c "}"); [|intros [= <-]; by left].
      intros [Hr|(v & _ & [Hr|(? & _ & [=])]%rbind_raise_inv)]%rbind_raise_inv.
      * right. eexists. by eapply lookup_raise_inv.
      * by eapply IH.
Qed.

Lemma jobs_raise_inv self e : jobs self = Raise e → template_error e.
Proof.
  unfold jobs. induction (_slices self) as [|h l IH]; [done|].
  cbn [rmap].
  intros [H|(o & _ & [H|(? & _ & [=])]%rbind_raise_inv)]%rbind_raise_inv.
  - unfold mbind, result_bind in H.
    apply rbind_raise_inv in H as [H|(? & _ & [=])].
    by eapply scan_raise_inv.
  - by apply IH.
Qed.

Lemma jobs_length self js : jobs self = Ok js → length js = length (_slices self).
Proof.
  unfold jobs. revert js. induction (_slices self) as [|h l IH]; intros js.
  - by intros [= <-].
  - cbn [rmap]. unfold mbind, result_bind.
    destruct (Template.substitute _ _) as [o|]; [|done]. cbn [rbind].
    destruct (rmap _ l) as [js'|]; [|done]. cbn [rbind].
    intros [= <-]. simpl. by rewrite (IH js').
Qed.

Section Steps.

Variable run : list string → filesystem → outcome * filesystem.
Variable sched : schedule.

(** [slice] up to the end of the dispatch, step by step. *)
Lemma dispatch_unfold self w :
  dispatch run sched self w =
  match _make_output_dir self w with
  | (Raise e, w1) => (Raise e, w1)
  | (Ok _, w1) =>
      if OS.can_open_w (fs w1) (scad_filename self) then
        match jobs self with
        | Raise e => (Raise e, template_written self w1)
        | Ok js =>
            if _processes self <? 1
            then (Raise ValueError, template_written self w1)
            else
              match pool_map sched (execute_slice run) js
                      (template_written self w1) with
              | (Ok _, w3) => (Ok (), w3)
              | (Raise e, w3) => (Raise e, w3)
              end
        end
      else (Raise IOError, with_log w1 (debug_contents self))
  end.
Proof.
  unfold dispatch. unfold mbind at 1, M_bind at 1, bind at 1.
  destruct (_make_output_dir self w) as [[[]|e] w1]; [|done].
  unfold mbind at 1, M_bind at 1, bind at 1.
  rewrite make_slice_file_unfold.
  destruct (OS.can_open_w (fs w1) (scad_filename self)); [|done].
  unfold mbind at 1, M_bind at 1, bind at 1, lift.
  destruct (jobs self) as [js|e]; [|done].
  unfold mbind at 1, M_bind at 1, bind at 1, Pool.
  destruct (_processes self <? 1); [done|].
  cbn [mret M_ret ret].
  unfold mbind at 1, M_bind at 1, bind at 1.
  by destruct (pool_map _ _ _ _) as [[?|?] ?].
Qed.

End Steps.

Section SliceFacts.

Variable run : list string → filesystem → outcome * filesystem.
Variable sched : schedule.

Lemma make_output_dir_inv self w r w1 :
  _make_output_dir self w = (r, w1) →
  invocations w1 = invocations w
  ∧ match r with
    | Ok _ => Path.has_sep (_out_format self) = true
    | Raise e => e = OSError ∧ w1 = w
    end.
Proof.
  destruct (make_output_dir_cases self w) as [->|(f & Hf & _)].
  - by intros [= <- <-].
  - rewrite Hf. intros [= <- <-]. split; [done|].
    by eapply make_output_dir_ok_has_sep.
Qed.

Lemma cleanup_inv self w r w' :
  cleanup self w = (r, w') →
  invocations w' = invocations w
  ∧ match r with Ok _ => True | Raise e => e = OSError end.
Proof.
  rewrite cleanup_unfold. destruct (keep_scad_file self).
  - by intros [= <- <-].
  - destruct (files (fs w) !! scad_filename self); by intros [= <- <-].
Qed.

(** X7: the output pattern is read only after the directory and the
    template are in place: when the job list raises, [slice] raises the
    same exception, the template file stays behind with the composed text,
    and no renderer has been invoked. *)
Theorem slice_pattern_error_leaves_template self w w1 e :
  _make_output_dir self w = (Ok (), w1) →
  OS.can_open_w (fs w1) (scad_filename self) = true →
  jobs self = Raise e →
  slice run sched self w = (Raise e, template_written self w1)
  ∧ files (fs (template_written self w1)) !! scad_filename self
    = Some (template_text self)
  ∧ invocations (template_written self w1) = invocations w.
Proof.
  intros Hd Hw Hj.
  rewrite slice_unfold, dispatch_unfold, Hd, Hw, Hj. split_and!.
  - done.
  - cbn. apply lookup_insert_eq.
  - cbn [invocations template_written].
    by apply make_output_dir_inv in Hd as [-> _].
Qed.

(** X8: when [slice] returns, the pool had at least one process, the
    pattern had a directory part, and the renderer was started exactly once
    for every height, in whatever order the pool took the jobs; the exit
    statuses are not looked at. *)
Theorem slice_returns_all_started self w w' :
  slice run sched self w = (Ok (), w') →
  1 ≤ _processes self
  ∧ Path.has_sep (_out_format self) = true
  ∧ ∃ js rs, jobs self = Ok js
      ∧ length js = length (_slices self)
      ∧ rs.*1 ≡ₚ js
      ∧ invocations w' = (invocations w ++ map started rs)%list.
Proof.
  rewrite slice_unfold, dispatch_unfold.
  destruct (_make_output_dir self w) as [[[]|e] w1] eqn:Hd; [|done].
  apply make_output_dir_inv in Hd as [Hinv Hsep].
  destruct (OS.can_open_w (fs w1) (scad_filename self)); [|done].
  destruct (jobs self) as [js|e] eqn:Hj; [|done].
  destruct (Z.ltb_spec (_processes self) 1) as [|Hp]; [done|].
  destruct (pool_map _ _ js _) as [[l|e] w3] eqn:Hpool; [|done].
  apply pool_map_inv in Hpool as (_ & rs & Hperm & Hinv3 & _).
  intros Hc. apply cleanup_inv in Hc as [Hinv' _].
  split_and!; [done..|].
  exists js, rs. split_and!; [done|by apply jobs_length|done|].
  rewrite Hinv', Hinv3. cbn [invocations template_written]. by rewrite Hinv.
Qed.

Lemma slice_raise_inv self w e w' :
  slice run sched self w = (Raise e, w') →
  e = OSError ∨ e = IOError ∨ e = ValueError ∨ ∃ key, e = KeyError key.
Proof.
  rewrite slice_unfold, dispatch_unfold.
  destruct (_make_output_dir self w) as [[[]|e1] w1] eqn:Hd.
  2:{ apply make_output_dir_inv in Hd as [_ [-> _]]. intros [= <- _]. auto. }
  destruct (OS.can_open_w (fs w1) (scad_filename self)).
  2:{ intros [= <- _]. auto. }
  destruct (jobs self) as [js|e1] eqn:Hj.
  2:{ intros [= <- _].
      destruct (jobs_raise_inv _ _ Hj) as [->|[key ->]]; eauto 6. }
  destruct (_processes self <? 1).
  { intros [= <- _]. auto. }
  destruct (pool_map _ _ js _) as [[rs|e1] w3] eqn:Hpool.
  - intros Hc. apply cleanup_inv in Hc as [_ ->]. auto.
  - apply pool_map_inv in Hpool as ->. intros [= <- _]. auto.
Qed.

(** X9: [slice] raises nothing but OSError (the directory, a renderer that
    cannot be started, the removal), IOError (the template file), and
    ValueError or KeyError (the output pattern, the number of processes);
    the CalledProcessError of a renderer never leaves it.  Whatever is not
    an OSError is raised before any renderer has been started. *)
Theorem slice_raises_only self w e w' :
  slice run sched self w = (Raise e, w') →
  (e = OSError ∨ e = IOError ∨ e = ValueError ∨ ∃ key, e = KeyError key)
  ∧ (e ≠ OSError → invocations w' = invocations w).
Proof.
  intros Hsl. split; [by eapply slice_raise_inv|].
  revert Hsl. rewrite slice_unfold, dispatch_unfold.
  destruct (_make_output_dir self w) as [[[]|e1] w1] eqn:Hd;
    apply make_output_dir_inv in Hd as [Hinv _].
  2:{ by intros [= <- <-]. }
  destruct (OS.can_open_w (fs w1) (scad_filename self)).
  2:{ by intros [= <- <-]. }
  destruct (jobs self) as [js|e1].
  2:{ by intros [= <- <-]. }
  destruct (_processes self <? 1).
  { by intros [= <- <-]. }
  destruct (pool_map _ _ js _) as [[rs|e1] w3] eqn:Hpool.
  - intros Hc. by apply cleanup_inv in Hc as [_ ->].
  - apply pool_map_inv in Hpool as ->. by intros [= <- _].
Qed.

(** Without heights no renderer is started. *)
Lemma slice_no_heights self w :
  _slices self = [] →
  invocations (slice run sched self w).2 = invocations w.
Proof.
  intros Hs. rewrite slice_unfold, dispatch_unfold.
  destruct (_make_output_dir self w) as [[[]|e1] w1] eqn:Hd;
    apply make_output_dir_inv in Hd as [Hinv _]; [|done].
  destruct (OS.can_open_w (fs w1) (scad_filename self)); [|done].
  unfold jobs. rewrite Hs. cbn [rmap].
  destruct (_processes self <? 1); [done|].
  unfold pool_map.
  assert (order sched [] = []) as -> by apply Permutation_nil_r, order_perm.
  unfold mbind, M_bind, bind. cbn [work mret M_ret ret].
  destruct (cleanup self _) as [r w'] eqn:Hc.
  apply cleanup_inv in Hc as [Hc _]. cbn [snd]. rewrite Hc.
  by cbn [invocations template_written].
Qed.

(** X10: with fewer than one process [slice] never returns and never
    starts a renderer. *)
Theorem slice_processes_below_one self w :
  _processes self < 1 →
  (slice run sched self w).1 ≠ Ok ()
  ∧ invocations (slice run sched self w).2 = invocations w.
Proof.
  intros Hp. rewrite slice_unfold, dispatch_unfold.
  destruct (_make_output_dir self w) as [[[]|e1] w1] eqn:Hd;
    apply make_output_dir_inv in Hd as [Hinv _]; [|done].
  destruct (OS.can_open_w (fs w1) (scad_filename self)); [|done].
  destruct (jobs self) as [js|e1]; [|done].
  destruct (Z.ltb_spec (_processes self) 1); [done|lia].
Qed.

End SliceFacts.

Lemma slice_pattern_error_leaves_template_witness :
  let self := with_slices (__init__ "out/$h.dxf" "openscad" 4) [0; 5] in
  (slice writes_output in_order self empty_world).1 = Raise (KeyError "h").
Proof.
  intros self.
  pose proof (slice_pattern_error_leaves_template writes_output in_order self
                empty_world (_make_output_dir self empty_world).2
                (KeyError "h")) as H.
  destruct H as [H _]; [reflexivity..|]. by rewrite H.
Defined.

Lemma slice_returns_all_started_witness :
  ∃ js rs, jobs two_heights = Ok js
    ∧ length js = 2%nat
    ∧ rs.*1 ≡ₚ js
    ∧ invocations (slice always_fails racing two_heights empty_world).2
      = map started rs.
Proof.
  destruct (slice_returns_all_started always_fails racing two_heights
              empty_world
              (slice always_fails racing two_heights empty_world).2)
    as (_ & _ & js & rs & ? & ? & ? & ?); [vm_compute; reflexivity|].
  exists js, rs. auto.
Defined.

Lemma slice_raises_only_witness :
  let self := with_slices (__init__ "out/$h.dxf" "openscad" 4) [0; 5] in
  invocations (slice writes_output in_order self empty_world).2 = [].
Proof.
  intros self.
  apply (slice_raises_only writes_output in_order self empty_world (KeyError "h")
           (slice writes_output in_order self empty_world).2);
    [vm_compute; reflexivity|discriminate].
Defined.

Lemma slice_processes_below_one_witness :
  let self := with_slices (__init__ "out/slice_$height.dxf" "openscad" 0)
                [0; 5] in
  (slice writes_output in_order self empty_world).1 ≠ Ok ()
  ∧ invocations (slice writes_output in_order self empty_world).2 = [].
Proof.
  intros self.
  apply (slice_processes_below_one writes_output in_order self empty_world). done.
Defined.

(** ** [run_from_cl] *)

Lemma truthy_nonzero x v : truthy x = Some v → x = Some v ∧ v ≠ 0.
Proof.
  destruct x as [y|]; simpl; [|done].
  destruct (Z.eqb_spec y 0); [done|]. by intros [= ->].
Qed.

(** With a truthy [step] or [number], [set_slices] can only raise
    ValueError. *)
Lemma set_slices_truthy_raise self start end_ step num w v e w' :
  (step = Some v ∧ num = None) ∨ (step = None ∧ num = Some v) → v ≠ 0 →
  set_slices self start end_ step num w = (Raise e, w') → e = ValueError.
Proof.
  intros Hcase Hv. rewrite set_slices_unfold. unfold heights, Py.div.
  destruct Hcase as [[-> ->]|[-> ->]].
  - unfold Py.range. destruct (Z.eqb_spec v 0); done.
  - destruct (Z.eqb_spec v 0); [done|]. cbn [mbind result_bind rbind].
    unfold Py.range. destruct (_ =? 0); [|done]. by intros [= <- _].
Qed.

Section CommandLineFacts.

Variable run : list string → filesystem → outcome * filesystem.
Variable sched : schedule.

(** The level under which [run_from_cl] logs changes neither how it ends
    nor what it invokes. *)
Lemma run_from_cl_ended props w :
  ended (run_from_cl run sched props w)
  = (run_configured run sched props w).1.
Proof.
  unfold run_from_cl. by destruct (run_configured run sched props w).
Qed.

Lemma run_from_cl_invocations props w :
  invocations (after (run_from_cl run sched props w))
  = invocations (run_configured run sched props w).2.
Proof.
  unfold run_from_cl. by destruct (run_configured run sched props w).
Qed.

(** X12: a [step] that is neither absent nor zero decides the heights
    alone: [run_from_cl] does the same whatever [number] is, and does not
    object to both being given. *)
Theorem run_from_cl_step_wins props number w :
  truthy (Props.step props) ≠ None →
  run_from_cl run sched (with_number props number) w
  = run_from_cl run sched props w.
Proof.
  intros Hs.
  assert (run_configured run sched (with_number props number) w
          = run_configured run sched props w) as Hsame.
  { unfold run_configured. cbn [with_number Props.object_module Props.step
      Props.number Props.start Props.end_].
    destruct (Props.object_module props) as [om|]; [|done].
    change (configured (with_number props number) om)
      with (configured props om).
    by destruct (truthy (Props.step props)). }
  unfold run_from_cl. by rewrite Hsame.
Qed.

(** X13: when [step] and [number] are each absent or zero, [run_from_cl]
    sets no heights and starts no renderer. *)
Theorem run_from_cl_without_spacing props w :
  truthy (Props.step props) = None → truthy (Props.number props) = None →
  invocations (after (run_from_cl run sched props w)) = invocations w.
Proof.
  intros Hs Hn. rewrite run_from_cl_invocations.
  unfold run_configured. rewrite Hs, Hn.
  destruct (Props.object_module props) as [om|]; [|done].
  pose proof (slice_no_heights run sched (configured props om)
                (LOG.info "Hello, world!" [] w).2 eq_refl) as Hinv.
  destruct (slice run sched _ _) as [[[]|e] w3]; exact Hinv.
Qed.

(** X14: for integer [start] and [end], [run_from_cl] lets only OSError,
    IOError, ValueError and KeyError out (besides the unbound [sys]).  It
    gives [set_slices] exactly one of [step] and [num], and never a zero,
    so the RuntimeError for both, the TypeError for neither and the
    ZeroDivisionError for [num = 0] are not raised. *)
Theorem run_from_cl_raises_only props w e :
  ended (run_from_cl run sched props w) = Raised e →
  e = OSError ∨ e = IOError ∨ e = ValueError ∨ ∃ key, e = KeyError key.
Proof.
  rewrite run_from_cl_ended. unfold run_configured.
  destruct (Props.object_module props) as [om|]; [|done].
  set (w1 := (LOG.info "Hello, world!" [] w).2).
  set (sc := configured props om).
  destruct (truthy (Props.step props)) as [s|] eqn:Hs.
  - apply truthy_nonzero in Hs as [_ Hs].
    destruct (set_slices sc _ _ (Some s) None w1) as [[sc'|e'] w2] eqn:Hset.
    + destruct (slice run sched sc' w2) as [r3 w3] eqn:Hsl.
      destruct r3 as [[]|e3]; [done|]. intros [= <-].
      by eapply slice_raise_inv.
    + intros [= <-]. right. right. left.
      eapply set_slices_truthy_raise; [|exact Hs|exact Hset]. auto.
  - destruct (truthy (Props.number props)) as [n|] eqn:Hn.
    + apply truthy_nonzero in Hn as [_ Hn].
      destruct (set_slices sc _ _ None (Some n) w1) as [[sc'|e'] w2] eqn:Hset.
      * destruct (slice run sched sc' w2) as [r3 w3] eqn:Hsl.
        destruct r3 as [[]|e3]; [done|]. intros [= <-].
        by eapply slice_raise_inv.
      * intros [= <-]. right. right. left.
        eapply set_slices_truthy_raise; [|exact Hn|exact Hset]. auto.
    + destruct (slice run sched sc w1) as [r3 w3] eqn:Hsl.
      destruct r3 as [[]|e3]; [done|]. intros [= <-].
      by eapply slice_raise_inv.
Qed.

End CommandLineFacts.

Lemma run_from_cl_step_wins_witness :
  run_from_cl writes_output in_order (with_number example_props None)
    empty_world
  = run_from_cl writes_output in_order example_props empty_world.
Proof.
  apply (run_from_cl_step_wins writes_output in_order example_props None
           empty_world).
  discriminate.
Defined.

Lemma run_from_cl_without_spacing_witness :
  let props :=
    {| Props.log_level := "INFO"; Props.object_module := Some ["block()"];
       Props.key_module := None; Props.include := None;
       Props.start := 0; Props.end_ := 10;
       Props.step := Some 0; Props.number := None;
       Props.output := "out/slice_$height.dxf";
       Props.scad_filename := "object_slice.scad";
       Props.keep_scad_file := false;
       Props.openscad_command := "openscad";
       Props.jobs := 4 |} in
  invocations (after (run_from_cl writes_output in_order props empty_world))
  = [].
Proof.
  intros props.
  apply (run_from_cl_without_spacing writes_output in_order props
           empty_world); reflexivity.
Defined.

Lemma run_from_cl_raises_only_witness :
  let e := OSError in
  e = OSError ∨ e = IOError ∨ e = ValueError ∨ ∃ key, e = KeyError key.
Proof.
  intros e.
  apply (run_from_cl_raises_only not_installed racing example_props
           empty_world e).
  vm_compute. reflexivity.
Defined.

(** ** One job, and the template during the dispatch *)

Section JobFacts.

Variable run : list string → filesystem → outcome * filesystem.
Variable sched : schedule.

(** X15: [execute_slice] starts the renderer once, with the command line
    [openscad -DLAYER_HEIGHT=<height> -o <output_file> <scad_file>].  It
    returns whatever the exit status, logging completion at level INFO for
    status 0 and the failed command at level ERROR otherwise; it raises
    only when the process cannot be started, then OSError, with the file
    system as it was. *)
Theorem execute_slice_one_invocation scad_file height output_file openscad
    w r w' :
  execute_slice run (scad_file, height, output_file, openscad) w = (r, w') →
  ∃ o, invocations w'
       = (invocations w
          ++ [([openscad; "-DLAYER_HEIGHT=" +:+ Py.str height; "-o";
                output_file; scad_file], o)])%list
    ∧ match o with
      | Exited code =>
          r = Ok ()
          ∧ log w'
            = (log w
               ++ [starting (scad_file, height, output_file, openscad);
                   finished (scad_file, height, output_file, openscad)
                     code])%list
      | NotLaunched => r = Raise OSError ∧ fs w' = fs w
      end.
Proof.
  destruct (execute_slice_outcome run (scad_file, height, output_file, openscad)
              w) as [(code & f' & _ & ->)|(f' & _ & ->)];
    intros [= <- <-].
  - by exists (Exited code).
  - by exists NotLaunched.
Qed.

(** A job keeps what the renderer leaves alone, whether it raises or
    not. *)
Lemma execute_slice_leaves_alone p j w :
  leaves_alone run p →
  files (fs (execute_slice run j w).2) !! p = files (fs w) !! p.
Proof.
  intros Hrun.
  destruct (execute_slice_outcome run j w)
    as [(code & f' & Hj & ->)|(f' & _ & ->)]; [|done].
  cbn [snd fs]. specialize (Hrun (command j) (fs w)). by rewrite Hj in Hrun.
Qed.

Lemma attempt_leaves_alone p js w :
  leaves_alone run p →
  files (fs (attempt (execute_slice run) js w)) !! p = files (fs w) !! p.
Proof.
  intros Hrun. revert w. induction js as [|j js IH]; intros w; [done|].
  cbn [attempt]. rewrite IH. by apply execute_slice_leaves_alone.
Qed.

(** A dispatch keeps what the renderer leaves alone. *)
Lemma pool_map_leaves_alone p js w r w' :
  leaves_alone run p →
  pool_map sched (execute_slice run) js w = (r, w') →
  files (fs w') !! p = files (fs w) !! p.
Proof.
  intros Hrun. unfold pool_map, mbind, M_bind, bind.
  generalize (order sched js) as l. intros l.
  assert (∀ w r1 w1,
            work (execute_slice run) (stragglers sched) l w = (r1, w1) →
            files (fs w1) !! p = files (fs w) !! p) as Hwork.
  { induction l as [|j l IH]; intros w0 r1 w1.
    - by intros [= <- <-].
    - cbn [work].
      pose proof (execute_slice_leaves_alone p j w0 Hrun) as Hj.
      destruct (execute_slice run j w0) as [[[]|e] w2]; cbn [snd] in Hj.
      + intros Hrest. apply IH in Hrest. by rewrite Hrest.
      + intros [= <- <-]. by rewrite attempt_leaves_alone. }
  destruct (work _ _ l w) as [[[]|e] w1] eqn:Hw; apply Hwork in Hw;
    by intros [= <- <-].
Qed.

(** X16: when the renderer leaves the template file alone and the
    template is to be kept, a [slice] that returns leaves the composed text
    in the template file. *)
Theorem slice_keeps_template self w w' :
  leaves_alone run (scad_filename self) →
  keep_scad_file self = true →
  slice run sched self w = (Ok (), w') →
  files (fs w') !! scad_filename self = Some (template_text self).
Proof.
  intros Hrun Hkeep. rewrite slice_unfold, dispatch_unfold.
  destruct (_make_output_dir self w) as [[[]|e] w1]; [|done].
  destruct (OS.can_open_w (fs w1) (scad_filename self)); [|done].
  destruct (jobs self) as [js|e]; [|done].
  destruct (_processes self <? 1); [done|].
  destruct (pool_map _ _ js _) as [[rs|e] w3] eqn:Hpool; [|done].
  apply (pool_map_leaves_alone _ _ _ _ _ Hrun) in Hpool.
  rewrite cleanup_unfold, Hkeep. intros [= <-]. rewrite Hpool.
  cbn. apply lookup_insert_eq.
Qed.

End JobFacts.

Lemma execute_slice_one_invocation_witness :
  ∃ o, invocations
         (execute_slice always_fails
            ("object_slice.scad", 5, "out/slice_5.dxf", "openscad")
            empty_world).2
       = [(["openscad"; "-DLAYER_HEIGHT=5"; "-o"; "out/slice_5.dxf";
            "object_slice.scad"], o)].
Proof.
  destruct (execute_slice_one_invocation always_fails
              "object_slice.scad" 5 "out/slice_5.dxf" "openscad" empty_world
              (execute_slice always_fails
                 ("object_slice.scad", 5, "out/slice_5.dxf", "openscad")
                 empty_world).1
              (execute_slice always_fails
                 ("object_slice.scad", 5, "out/slice_5.dxf", "openscad")
                 empty_world).2)
    as (o & Ho & _); [reflexivity|].
  exists o. exact Ho.
Defined.

Lemma slice_keeps_template_witness :
  files (fs (slice always_fails racing kept empty_world).2) !! "object_slice.scad"
  = Some (template_text kept).
Proof.
  apply (slice_keeps_template always_fails racing kept empty_world
           (slice always_fails racing kept empty_world).2).
  - intros cmd f. reflexivity.
  - reflexivity.
  - vm_compute. reflexivity.
Defined.

Section Success.

Variable run : list string → filesystem → outcome * filesystem.
Variable sched : schedule.

(** X17: [slice] returns when the output directory is there or can be
    made, the template file can be written, the pattern substitutes for
    every height, there is at least one process, every renderer process
    starts, and the renderer leaves the template file alone.  Then every
    job has been run once, in whatever order the pool took them, and the
    template file is gone, or holds the composed text when it is to be
    kept. *)
Theorem slice_succeeds self w w1 js :
  _make_output_dir self w = (Ok (), w1) →
  OS.can_open_w (fs w1) (scad_filename self) = true →
  jobs self = Ok js →
  1 ≤ _processes self →
  Forall (launches run) js →
  leaves_alone run (scad_filename self) →
  ∃ w' rs, slice run sched self w = (Ok (), w')
    ∧ rs.*1 ≡ₚ js
    ∧ invocations w' = (invocations w ++ map started rs)%list
    ∧ files (fs w') !! scad_filename self
      = (if keep_scad_file self then Some (template_text self) else None).
Proof.
  intros Hd Hw Hj Hp Hall Hrun.
  rewrite slice_unfold, dispatch_unfold, Hd, Hw, Hj.
  destruct (Z.ltb_spec (_processes self) 1); [lia|].
  destruct (pool_map_all_launched run sched js (template_written self w1)
              Hall) as (w3 & Hpool).
  rewrite Hpool.
  assert (files (fs w3) !! scad_filename self = Some (template_text self))
    as Hfile.
  { rewrite (pool_map_leaves_alone run sched _ _ _ _ _ Hrun Hpool).
    cbn. apply lookup_insert_eq. }
  apply pool_map_inv in Hpool as (_ & rs & Hperm & Hinv & _).
  apply make_output_dir_inv in Hd as [Hinv1 _].
  rewrite cleanup_unfold.
  destruct (keep_scad_file self).
  - exists w3, rs. split_and!; [done..| |done].
    rewrite Hinv. cbn [invocations template_written]. by rewrite Hinv1.
  - rewrite Hfile. eexists _, rs. split_and!; [done..| |].
    + cbn [invocations template_removed]. rewrite Hinv.
      cbn [invocations template_written]. by rewrite Hinv1.
    + cbn. apply lookup_delete_eq.
Qed.

End Success.

Lemma slice_succeeds_witness :
  ∃ w', slice always_fails racing two_heights empty_world = (Ok (), w')
    ∧ files (fs w') !! "object_slice.scad" = None.
Proof.
  destruct (slice_succeeds always_fails racing two_heights empty_world
              (_make_output_dir two_heights empty_world).2
              [("object_slice.scad", 0, "out/slice_0.dxf", "openscad");
               ("object_slice.scad", 5, "out/slice_5.dxf", "openscad")])
    as (w' & rs & H1 & _ & _ & H4).
  - reflexivity.
  - reflexivity.
  - reflexivity.
  - simpl. lia.
  - repeat constructor; intros f; discriminate.
  - intros cmd f. reflexivity.
  - exists w'. split; [exact H1|exact H4].
Defined.

(** ** Failing jobs *)

(** C3, as claimed, fails: when the renderer cannot be launched the OSError
    of a job is raised out of [slice], and the template is left behind. *)
Lemma slice_launch_failure_raises :
  (slice not_installed racing two_heights empty_world).1 = Raise OSError
  ∧ files (fs (slice not_installed racing two_heights empty_world).2)
      !! "object_slice.scad"
    = Some (template_text two_heights).
Proof. split; vm_compute; reflexivity. Qed.

(** C3, amended: once [slice] has reached the dispatch, a renderer that
    exits with a non-zero status is logged at level ERROR and raises
    nothing; as long as every renderer process starts, the dispatch
    returns and every job has been run exactly once, in whatever order the
    pool took them and whatever the exit statuses were.  A renderer that
    cannot be launched raises OSError out of [execute_slice], out of the
    dispatch and out of [slice]. *)
Theorem dispatch_tolerates_exit_status run sched self js w w1 :
  _make_output_dir self w = (Ok (), w1) →
  OS.can_open_w (fs w1) (scad_filename self) = true →
  jobs self = Ok js →
  1 ≤ _processes self →
  (Forall (launches run) js →
     ∃ w' rs, dispatch run sched self w = (Ok (), w')
       ∧ rs.*1 ≡ₚ js
       ∧ invocations w' = (invocations w ++ map started rs)%list
       ∧ ∀ j code, (j, code) ∈ rs → code ≠ 0 →
           finished j code ∈ log w'
           ∧ lvl (finished j code) = ERROR)
  ∧ (∀ j, j ∈ js → (∀ f, (run (command j) f).1 = NotLaunched) →
       (∀ w0, (execute_slice run j w0).1 = Raise OSError)
       ∧ (dispatch run sched self w).1 = Raise OSError
       ∧ (slice run sched self w).1 = Raise OSError).
Proof.
  intros Hd Hw Hj Hp.
  assert ((_processes self <? 1) = false) as Hproc by (apply Z.ltb_ge; lia).
  split.
  - intros Hall. rewrite dispatch_unfold, Hd, Hw, Hj, Hproc.
    destruct (pool_map_all_launched run sched js (template_written self w1)
                Hall) as (w3 & Hpool).
    rewrite Hpool.
    apply pool_map_inv in Hpool as (_ & rs & Hperm & Hinv & Hfin).
    apply make_output_dir_inv in Hd as [Hinv1 _].
    exists w3, rs. split_and!; [done..| |].
    + rewrite Hinv. cbn [invocations template_written]. by rewrite Hinv1.
    + intros j code Hin Hcode. split; [exact (Hfin (j, code) Hin)|].
      unfold finished. by destruct (Z.eqb_spec code 0).
  - intros j Hin Hnot.
    assert ((dispatch run sched self w).1 = Raise OSError) as Hdis.
    { rewrite dispatch_unfold, Hd, Hw, Hj, Hproc.
      pose proof (pool_map_not_launched run sched js j
                    (template_written self w1) Hin Hnot) as Hpool.
      destruct (pool_map _ _ js _) as [[l|e] w3]; [done|].
      simpl in Hpool. by injection Hpool as ->. }
    split_and!.
    + intros w0.
      destruct (execute_slice_outcome run j w0)
        as [(code & f' & Hrun & _)|(f' & _ & ->)]; [|done].
      specialize (Hnot (fs w0)). by rewrite Hrun in Hnot.
    + done.
    + rewrite slice_unfold.
      destruct (dispatch run sched self w) as [[[]|e] w3]; [done|].
      simpl in Hdis. by injection Hdis as ->.
Qed.

Lemma dispatch_tolerates_exit_status_witness :
  (∃ w' rs, dispatch always_fails racing two_heights empty_world = (Ok (), w')
     ∧ rs.*1 ≡ₚ [("object_slice.scad", 0, "out/slice_0.dxf", "openscad");
                 ("object_slice.scad", 5, "out/slice_5.dxf", "openscad")]
     ∧ invocations w' = map started rs)
  ∧ (slice not_installed racing two_heights empty_world).1 = Raise OSError.
Proof.
  split.
  - destruct (dispatch_tolerates_exit_status always_fails racing two_heights
                [("object_slice.scad", 0, "out/slice_0.dxf", "openscad");
                 ("object_slice.scad", 5, "out/slice_5.dxf", "openscad")]
                empty_world (_make_output_dir two_heights empty_world).2)
      as [Hok _]; [reflexivity|reflexivity|reflexivity|simpl; lia|].
    destruct Hok as (w' & rs & H1 & H2 & H3 & _).
    + repeat constructor; intros f; discriminate.
    + exists w', rs. split_and!; [exact H1|exact H2|exact H3].
  - destruct (dispatch_tolerates_exit_status not_installed racing two_heights
                [("object_slice.scad", 0, "out/slice_0.dxf", "openscad");
                 ("object_slice.scad", 5, "out/slice_5.dxf", "openscad")]
                empty_world (_make_output_dir two_heights empty_world).2)
      as [_ Hraise]; [reflexivity|reflexivity|reflexivity|simpl; lia|].
    apply (Hraise ("object_slice.scad", 0, "out/slice_0.dxf", "openscad"));
      [apply list_elem_of_here|intros f; reflexivity].
Defined.
